(** * ticketguru: the issue analysis and correlation engine

    A shallow embedding of the Go packages [jira], [analyze] and [plot] of
    nclandrei/ticketguru, together with the parts of the Go standard library
    they call ([strings], [time], [regexp]), and the properties of the
    engine stated over that embedding.

    Conventions.
    - A Go [string] is a [string] of bytes.
    - A Go [int] is a [Z]; every [int] below is a length or a count bounded
      by the size of its input, so the 64-bit wrap-around never happens.
    - A Go [float64] is a primitive binary64 [float].
    - A run-time panic is the [Panics] outcome.
    - A Go [error] result is an [option]: [None] is the nil error. *)

From Stdlib Require Import ZArith List String Ascii Bool Lia.
From Stdlib Require Import PrimFloat Uint63.
From Stdlib Require FloatAxioms SpecFloat FloatOps.
Import ListNotations.

Open Scope string_scope.
Open Scope list_scope.
Open Scope Z_scope.

(** ** Outcomes of Go code that may panic *)

Inductive outcome (A : Type) : Type :=
| Returns (a : A)
| Panics (msg : string).

Arguments Returns {A} a.
Arguments Panics {A} msg.

Definition bind {A B : Type} (o : outcome A) (k : A -> outcome B) : outcome B :=
  match o with
  | Returns a => k a
  | Panics msg => Panics msg
  end.

Notation "x <- o ;; k" := (bind o (fun x => k))
  (at level 61, o at next level, right associativity).

(** ** Conversions to [float64] *)

Module GoFloat.

(** [float64(n)] for [0 <= n < 2^63]: rounded to nearest, as the hardware
    conversion does. *)
Definition of_nonneg (n : Z) : float := PrimFloat.of_uint63 (Uint63.of_Z n).

(** [float64(n)] for a 64-bit signed [n]. *)
Definition of_int (n : Z) : float :=
  if n <? 0 then PrimFloat.opp (of_nonneg (- n)) else of_nonneg n.

End GoFloat.

(** ** Package [strings] and string slicing *)

Module strings.

Definition newline : ascii := "010"%char.
Definition space : ascii := " "%char.

Definition len (s : string) : Z := Z.of_nat (String.length s).

Fixpoint drop (n : nat) (s : string) : string :=
  match n, s with
  | O, _ => s
  | S n', String _ s' => drop n' s'
  | S _, EmptyString => EmptyString
  end.

Fixpoint rev_onto (s acc : string) : string :=
  match s with
  | EmptyString => acc
  | String c s' => rev_onto s' (String c acc)
  end.

Definition rev (s : string) : string := rev_onto s EmptyString.

(** The slice expression [s[lo:]]: it panics unless [0 <= lo <= len(s)]. *)
Definition slice_from (s : string) (lo : Z) : outcome string :=
  if (lo <? 0) || (len s <? lo)
  then Panics "slice bounds out of range"
  else Returns (drop (Z.to_nat lo) s).

(** [last_index_from s substr i acc]: [s] is the part of the text that
    starts at byte [i]; [acc] is the last index below [i] at which
    [substr] occurs, or [-1]. *)
Fixpoint last_index_from (s substr : string) (i acc : Z) : Z :=
  let acc' := if String.prefix substr s then i else acc in
  match s with
  | EmptyString => acc'
  | String _ s' => last_index_from s' substr (i + 1) acc'
  end.

(** [strings.LastIndex]: the index of the last instance of [substr] in [s],
    or [-1] if [substr] is not present. *)
Definition LastIndex (s substr : string) : Z := last_index_from s substr 0 (-1).

(** [strings.Split(s, sep)] for a separator of one byte, which is the only
    form the sources use: the substrings between the separators, so always
    one more element than there are separators. *)
Fixpoint Split (s : string) (sep : ascii) : list string :=
  match s with
  | EmptyString => [EmptyString]
  | String c s' =>
      if Ascii.eqb c sep then EmptyString :: Split s' sep
      else match Split s' sep with
           | [] => [String c EmptyString]
           | l :: ls => String c l :: ls
           end
  end.

Definition bytes (l : list nat) : string :=
  fold_right (fun n s => String (ascii_of_nat n) s) EmptyString l.

(** The UTF-8 encodings of the code points for which [unicode.IsSpace]
    holds: tab, LF, VT, FF, CR, space, U+0085, U+00A0, U+1680,
    U+2000..U+200A, U+2028, U+2029, U+202F, U+205F and U+3000. *)
Definition space_encodings : list string :=
  map bytes
    [ [9]; [10]; [11]; [12]; [13]; [32];
      [194; 133]; [194; 160]; [225; 154; 128];
      [226; 128; 128]; [226; 128; 129]; [226; 128; 130]; [226; 128; 131];
      [226; 128; 132]; [226; 128; 133]; [226; 128; 134]; [226; 128; 135];
      [226; 128; 136]; [226; 128; 137]; [226; 128; 138];
      [226; 128; 168]; [226; 128; 169]; [226; 128; 175];
      [226; 129; 159]; [227; 128; 128] ]%nat.

(** Number of bytes of the white-space code point [s] starts with, given
    the encodings to look for; [0] when it starts with none. *)
Definition space_width (encs : list string) (s : string) : nat :=
  match find (fun e => String.prefix e s) encs with
  | Some e => String.length e
  | None => O
  end.

Fixpoint trim_left (encs : list string) (fuel : nat) (s : string) : string :=
  match fuel with
  | O => s
  | S fuel' =>
      match space_width encs s with
      | O => s
      | S w => trim_left encs fuel' (drop (S w) s)
      end
  end.

Definition TrimLeftSpace (s : string) : string :=
  trim_left space_encodings (String.length s) s.

(** Trailing white space is removed on the reversed text, looking for the
    reversed encodings. *)
Definition TrimRightSpace (s : string) : string :=
  rev (trim_left (map rev space_encodings) (String.length s) (rev s)).

(** [strings.TrimSpace]: [s] without its leading and trailing white space,
    as defined by Unicode. *)
Definition TrimSpace (s : string) : string := TrimRightSpace (TrimLeftSpace s).

End strings.

(** ** Package [time] *)

Module time.

(** An instant, in nanoseconds on the absolute time line.  The instants the
    engine sees come from JSON and carry no monotonic clock reading. *)
Definition Time := Z.

(** A [Duration] is an [int64] count of nanoseconds. *)
Definition Duration := Z.

Definition minDuration : Duration := - 2 ^ 63.
Definition maxDuration : Duration := 2 ^ 63 - 1.
Definition Hour : Duration := 3600 * 1000000000.

(** [t.Sub(u)]: the duration [t-u], saturated to the range of [Duration]. *)
Definition Sub (t u : Time) : Duration :=
  let d := t - u in
  if d <? minDuration then minDuration
  else if maxDuration <? d then maxDuration
  else d.

(** [d.Hours()]: [hour := d / Hour; nsec := d % Hour;
    return float64(hour) + float64(nsec)/(60*60*1e9)], with Go's truncated
    division. *)
Definition Hours (d : Duration) : float :=
  let hour := Z.quot d Hour in
  let nsec := Z.rem d Hour in
  PrimFloat.add (GoFloat.of_int hour)
                (PrimFloat.div (GoFloat.of_int nsec) 3600000000000%float).

End time.

(** ** Package [regexp]

    The subset of Go's regular expressions (RE2 syntax, no flags) that the
    engine's patterns are written in: literals, [.], escapes, bracket
    classes, groups, alternation, [^], and the repetitions [*], [+], [?],
    [{n}], [{n,}], [{n,m}] with their non-greedy forms.  A construct outside
    the subset is answered with [ErrUnsupported].

    Matching is over bytes.  Go matches over code points; the two agree
    whenever every [.] or negated class stands under a repetition that is
    delimited by ASCII characters or by the ends of the match, which is how
    the patterns of [analyze] use them. *)

Module regexp.

Inductive Regexp : Type :=
| Void                                   (* matches nothing *)
| Eps                                    (* the empty string *)
| Bol                                    (* [^]: at the beginning of the text *)
| Lit (c : ascii)
| Cls (negated : bool) (ranges : list (ascii * ascii))
| Seq (r1 r2 : Regexp)
| Alt (r1 r2 : Regexp)
| Star (r : Regexp).

Inductive Error : Type :=
| ErrMissingParen
| ErrUnexpectedParen
| ErrMissingBracket
| ErrMissingRepeatArgument
| ErrInvalidRepeatOp
| ErrInvalidRepeatSize
| ErrInvalidCharRange
| ErrTrailingBackslash
| ErrInvalidEscape
| ErrUnsupported.

Inductive result (A : Type) : Type :=
| Ok (a : A)
| Err (e : Error).

Arguments Ok {A} a.
Arguments Err {A} e.

(** *** Syntax *)

Definition code (c : ascii) : N := N_of_ascii c.

Definition between (lo hi c : ascii) : bool :=
  (code lo <=? code c)%N && (code c <=? code hi)%N.

Definition is_digit (c : ascii) : bool := between "0" "9" c.

Definition is_word (c : ascii) : bool :=
  is_digit c || between "a" "z" c || between "A" "Z" c || Ascii.eqb c "_".

Definition tab : ascii := "009"%char.
Definition lf : ascii := "010"%char.
Definition vt : ascii := "011"%char.
Definition ff : ascii := "012"%char.
Definition cr : ascii := "013"%char.
Definition bel : ascii := "007"%char.

(** [\s] is [[\t\n\f\r ]], [\d] is [[0-9]], [\w] is [[0-9A-Za-z_]]. *)
Definition space_ranges : list (ascii * ascii) :=
  [(tab, lf); (ff, cr); (" ", " ")]%char.
Definition digit_ranges : list (ascii * ascii) := [("0", "9")]%char.
Definition word_ranges : list (ascii * ascii) :=
  [("0", "9"); ("A", "Z"); ("_", "_"); ("a", "z")]%char.

(** [.] without the [s] flag: any character but a line feed. *)
Definition dot : Regexp := Cls true [(lf, lf)].

Inductive escape : Type :=
| EscChar (c : ascii)
| EscClass (negated : bool) (ranges : list (ascii * ascii))
| EscError (e : Error).

(** The character after a backslash. *)
Definition parse_escape (c : ascii) : escape :=
  if Ascii.eqb c "a" then EscChar bel
  else if Ascii.eqb c "f" then EscChar ff
  else if Ascii.eqb c "n" then EscChar lf
  else if Ascii.eqb c "r" then EscChar cr
  else if Ascii.eqb c "t" then EscChar tab
  else if Ascii.eqb c "v" then EscChar vt
  else if Ascii.eqb c "d" then EscClass false digit_ranges
  else if Ascii.eqb c "D" then EscClass true digit_ranges
  else if Ascii.eqb c "s" then EscClass false space_ranges
  else if Ascii.eqb c "S" then EscClass true space_ranges
  else if Ascii.eqb c "w" then EscClass false word_ranges
  else if Ascii.eqb c "W" then EscClass true word_ranges
  else if (128 <=? code c)%N then EscError ErrUnsupported
  else if is_digit c then EscError ErrUnsupported             (* octal, back references *)
  else if existsb (Ascii.eqb c) (list_ascii_of_string "AbBzCQEpPx")
       then EscError ErrUnsupported
  else if is_word c then EscError ErrInvalidEscape
  else EscChar c.                                             (* escaped punctuation *)

Fixpoint parse_digits (s : string) (acc : option nat) : option nat * string :=
  match s with
  | String c s' =>
      if is_digit c
      then let d := N.to_nat (code c - code "0") in
           parse_digits s' (Some (match acc with Some n => 10 * n + d | None => d end)%nat)
      else (acc, s)
  | EmptyString => (acc, s)
  end.

(** The text after a [{]: [n}], [n,}] or [n,m}].  [None] when it is not a
    repetition, in which case the brace is an ordinary character. *)
Definition parse_repeat (s : string) : option (nat * option nat * string) :=
  match parse_digits s None with
  | (Some n, String "}" rest) => Some (n, Some n, rest)
  | (Some n, String "," s1) =>
      match parse_digits s1 None with
      | (None, String "}" rest) => Some (n, None, rest)
      | (Some m, String "}" rest) => Some (n, Some m, rest)
      | _ => None
      end
  | _ => None
  end.

Fixpoint power (n : nat) (r tail : Regexp) : Regexp :=
  match n with
  | O => tail
  | S n' => Seq r (power n' r tail)
  end.

Definition plus (r : Regexp) : Regexp := Seq r (Star r).
Definition opt (r : Regexp) : Regexp := Alt r Eps.

(** [r{n,}] is [n] copies of [r] and then [r*]; [r{n,m}] is [n] copies
    and then [m-n] optional ones. *)
Definition repeat (r : Regexp) (n : nat) (m : option nat) : result Regexp :=
  match m with
  | None =>
      if (1000 <? n)%nat then Err ErrInvalidRepeatSize
      else Ok (power n r (Star r))
  | Some m =>
      if (1000 <? m)%nat || (m <? n)%nat then Err ErrInvalidRepeatSize
      else Ok (power n r (power (m - n) (opt r) Eps))
  end.

(** Does a repetition operator start here? *)
Definition starts_repeat (s : string) : bool :=
  match s with
  | String c s' =>
      Ascii.eqb c "*" || Ascii.eqb c "+" || Ascii.eqb c "?"
      || (Ascii.eqb c "{" && match parse_repeat s' with Some _ => true | None => false end)
  | EmptyString => false
  end.

(** After a repetition operator: an optional [?] (non-greedy, which does
    not change what is matched), and no second operator. *)
Definition after_repeat (r : Regexp) (s : string) : result (Regexp * string) :=
  let s1 := match s with String "?" s' => s' | _ => s end in
  if starts_repeat s1 then Err ErrInvalidRepeatOp else Ok (r, s1).

(** The repetition operator, if any, that follows the atom [r]. *)
Definition parse_postfix (r : Regexp) (s : string) : result (Regexp * string) :=
  match s with
  | String "*" s' => after_repeat (Star r) s'
  | String "+" s' => after_repeat (plus r) s'
  | String "?" s' => after_repeat (opt r) s'
  | String "{" s' =>
      match parse_repeat s' with
      | Some (n, m, rest) =>
          match repeat r n m with
          | Ok r' => after_repeat r' rest
          | Err e => Err e
          end
      | None => Ok (r, s)
      end
  | _ => Ok (r, s)
  end.

(** The upper end of a range [lo-hi] inside brackets, when one follows. *)
Definition parse_range_end (lo : ascii) (s : string)
  : result (list (ascii * ascii) * string) :=
  match s with
  | String "-" (String "]" _) => Ok ([(lo, lo)], s)
  | String "-" (String "\" (String e rest)) =>
      match parse_escape e with
      | EscChar hi =>
          if (code hi <? code lo)%N then Err ErrInvalidCharRange else Ok ([(lo, hi)], rest)
      | EscClass _ _ => Err ErrInvalidCharRange
      | EscError err => Err err
      end
  | String "-" (String hi rest) =>
      if (code hi <? code lo)%N then Err ErrInvalidCharRange else Ok ([(lo, hi)], rest)
  | _ => Ok ([(lo, lo)], s)
  end.

(** The items of a bracket class up to its closing bracket.  [first] is
    set at the first item, where a [ ] ] is an ordinary character. *)
Fixpoint parse_class_items (fuel : nat) (first : bool) (s : string)
         (acc : list (ascii * ascii)) : result (list (ascii * ascii) * string) :=
  match fuel with
  | O => Err ErrMissingBracket
  | S fuel' =>
      match s with
      | EmptyString => Err ErrMissingBracket
      | String "]" rest =>
          if first
          then match parse_range_end "]" rest with
               | Ok (rs, rest') => parse_class_items fuel' false rest' (acc ++ rs)
               | Err e => Err e
               end
          else Ok (acc, rest)
      | String "[" (String ":" _) => Err ErrUnsupported
      | String "\" EmptyString => Err ErrTrailingBackslash
      | String "\" (String e rest) =>
          match parse_escape e with
          | EscChar c =>
              match parse_range_end c rest with
              | Ok (rs, rest') => parse_class_items fuel' false rest' (acc ++ rs)
              | Err err => Err err
              end
          | EscClass false rs => parse_class_items fuel' false rest (acc ++ rs)
          | EscClass true _ => Err ErrUnsupported
          | EscError err => Err err
          end
      | String c rest =>
          if (128 <=? code c)%N then Err ErrUnsupported
          else match parse_range_end c rest with
               | Ok (rs, rest') => parse_class_items fuel' false rest' (acc ++ rs)
               | Err e => Err e
               end
      end
  end.

(** A bracket class, after its opening bracket. *)
Definition parse_class (s : string) : result (Regexp * string) :=
  let '(negated, s1) := match s with String "^" s' => (true, s') | _ => (false, s) end in
  match parse_class_items (S (String.length s1)) true s1 [] with
  | Ok (rs, rest) => Ok (Cls negated rs, rest)
  | Err e => Err e
  end.

Definition sequence (r rest : Regexp) : Regexp :=
  match rest with
  | Eps => r
  | _ => Seq r rest
  end.

(** Recursive descent: alternation, concatenation, repetition, atom. *)
Fixpoint parse_alt (fuel : nat) (s : string) : result (Regexp * string) :=
  match fuel with
  | O => Err ErrUnsupported
  | S fuel' =>
      match parse_seq fuel' s with
      | Ok (r1, String "|" s') =>
          match parse_alt fuel' s' with
          | Ok (r2, rest) => Ok (Alt r1 r2, rest)
          | Err e => Err e
          end
      | other => other
      end
  end
with parse_seq (fuel : nat) (s : string) : result (Regexp * string) :=
  match fuel with
  | O => Err ErrUnsupported
  | S fuel' =>
      match s with
      | EmptyString => Ok (Eps, s)
      | String "|" _ => Ok (Eps, s)
      | String ")" _ => Ok (Eps, s)
      | _ =>
          match parse_atom fuel' s with
          | Ok (a, s1) =>
              match parse_postfix a s1 with
              | Ok (r, s2) =>
                  match parse_seq fuel' s2 with
                  | Ok (rest, s3) => Ok (sequence r rest, s3)
                  | Err e => Err e
                  end
              | Err e => Err e
              end
          | Err e => Err e
          end
      end
  end
with parse_atom (fuel : nat) (s : string) : result (Regexp * string) :=
  match fuel with
  | O => Err ErrUnsupported
  | S fuel' =>
      match s with
      | EmptyString => Ok (Eps, s)
      | String "(" (String "?" _) => Err ErrUnsupported      (* flags, named groups *)
      | String "(" s' =>
          match parse_alt fuel' s' with
          | Ok (r, String ")" rest) => Ok (r, rest)
          | Ok _ => Err ErrMissingParen
          | Err e => Err e
          end
      | String "[" s' => parse_class s'
      | String "." s' => Ok (dot, s')
      | String "^" s' => Ok (Bol, s')
      | String "$" _ => Err ErrUnsupported
      | String "*" _ => Err ErrMissingRepeatArgument
      | String "+" _ => Err ErrMissingRepeatArgument
      | String "?" _ => Err ErrMissingRepeatArgument
      | String "{" s' =>
          match parse_repeat s' with
          | Some _ => Err ErrMissingRepeatArgument
          | None => Ok (Lit "{", s')
          end
      | String "\" EmptyString => Err ErrTrailingBackslash
      | String "\" (String e s') =>
          match parse_escape e with
          | EscChar c => Ok (Lit c, s')
          | EscClass negated rs => Ok (Cls negated rs, s')
          | EscError err => Err err
          end
      | String c s' => if (128 <=? code c)%N then Err ErrUnsupported else Ok (Lit c, s')
      end
  end.

(** [regexp.Compile]. *)
Definition Compile (expr : string) : result Regexp :=
  match parse_alt (4 * String.length expr + 4) expr with
  | Ok (r, EmptyString) => Ok r
  | Ok (_, _) => Err ErrUnexpectedParen
  | Err e => Err e
  end.

(** *** Matching *)

Definition in_ranges (c : ascii) (ranges : list (ascii * ascii)) : bool :=
  existsb (fun '(lo, hi) => between lo hi c) ranges.

Definition in_class (negated : bool) (ranges : list (ascii * ascii)) (c : ascii) : bool :=
  xorb negated (in_ranges c ranges).

(** [nullable bot r]: [r] matches the empty string at the current
    position; [bot] tells whether that position is the beginning of the
    text. *)
Fixpoint nullable (bot : bool) (r : Regexp) : bool :=
  match r with
  | Void => false
  | Eps => true
  | Bol => bot
  | Lit _ => false
  | Cls _ _ => false
  | Seq r1 r2 => nullable bot r1 && nullable bot r2
  | Alt r1 r2 => nullable bot r1 || nullable bot r2
  | Star _ => true
  end.

(** [deriv bot c r]: what remains to be matched of [r] once the character
    [c] has been read at the current position. *)
Fixpoint deriv (bot : bool) (c : ascii) (r : Regexp) : Regexp :=
  match r with
  | Void => Void
  | Eps => Void
  | Bol => Void
  | Lit c' => if Ascii.eqb c c' then Eps else Void
  | Cls negated ranges => if in_class negated ranges c then Eps else Void
  | Seq r1 r2 =>
      if nullable bot r1
      then Alt (Seq (deriv bot c r1) r2) (deriv bot c r2)
      else Seq (deriv bot c r1) r2
  | Alt r1 r2 => Alt (deriv bot c r1) (deriv bot c r2)
  | Star r1 => Seq (deriv bot c r1) (Star r1)
  end.

(** Some prefix of [s] matches [r]. *)
Fixpoint match_prefix (bot : bool) (r : Regexp) (s : string) : bool :=
  nullable bot r
  || match s with
     | EmptyString => false
     | String c s' => match_prefix false (deriv bot c r) s'
     end.

(** Some substring of the text matches [r]; [s] is what is left of the
    text and [bot] tells whether [s] is the whole of it. *)
Fixpoint search (bot : bool) (r : Regexp) (s : string) : bool :=
  match_prefix bot r s
  || match s with
     | EmptyString => false
     | String _ s' => search false r s'
     end.

(** [re.FindStringIndex(s) != nil]: the sources only test the location
    against [nil]. *)
Definition FindStringIndex_found (re : Regexp) (s : string) : bool :=
  search true re s.

(** *** What a regular expression matches

    [Matches bot r s]: the string [s], standing at a position of the text
    that is its beginning iff [bot], matches [r]. *)
Definition is_empty (s : string) : bool :=
  match s with EmptyString => true | String _ _ => false end.

Inductive Matches : bool -> Regexp -> string -> Prop :=
| MEps bot : Matches bot Eps EmptyString
| MBol : Matches true Bol EmptyString
| MLit bot c : Matches bot (Lit c) (String c EmptyString)
| MCls bot negated ranges c :
    in_class negated ranges c = true ->
    Matches bot (Cls negated ranges) (String c EmptyString)
| MSeq bot r1 r2 s1 s2 :
    Matches bot r1 s1 ->
    Matches (bot && is_empty s1) r2 s2 ->
    Matches bot (Seq r1 r2) (s1 ++ s2)%string
| MAltL bot r1 r2 s : Matches bot r1 s -> Matches bot (Alt r1 r2) s
| MAltR bot r1 r2 s : Matches bot r2 s -> Matches bot (Alt r1 r2) s
| MStarNil bot r : Matches bot (Star r) EmptyString
| MStarApp bot r s1 s2 :
    Matches bot r s1 ->
    Matches (bot && is_empty s1) (Star r) s2 ->
    Matches bot (Star r) (s1 ++ s2)%string.

End regexp.

(** ** Package [jira]

    The structs keep their Go names and the fields that the engine reads.
    A field whose Go name is also the name of a type, or of a field of
    another struct, carries the name of its struct in front
    ([Issue.Fields] is [IssueFields], [ChangelogHistory.Created] is
    [HistoryCreated], [Comments.Comments] is [CommentList]). *)

Module jira.

(** [type JTime time.Time]; [analyze] names the same type [jira.Time]. *)
Definition JTime := time.Time.

(** [Image AttachmentType = iota + 1], then [Text], [Code], [Video]. *)
Inductive AttachmentType : Type := Image | Text | Code | Video.

Definition AttachmentType_value (t : AttachmentType) : Z :=
  match t with Image => 1 | Text => 2 | Code => 3 | Video => 4 end.

Record ChangelogHistoryItem : Type := {
  Field : string;
  FieldType : string;
  From : string;
  FromString : string;
  To : string;
  ToString : string
}.

Record ChangelogHistory : Type := {
  HistoryID : string;
  HistoryCreated : JTime;
  Items : list ChangelogHistoryItem
}.

Record Changelog : Type := {
  Histories : list ChangelogHistory
}.

Record Attachment : Type := {
  Filename : string;
  Size : Z
}.

Record Priority : Type := {
  PriorityID : string;
  PriorityName : string
}.

Record Comment : Type := {
  Body : string;
  CommentCreated : JTime
}.

Record Comments : Type := {
  CommentList : list Comment
}.

Record Fields : Type := {
  Summary : string;
  Description : string;
  Created : JTime;
  Attachments : list Attachment;
  FieldComments : Comments;
  FieldPriority : Priority
}.

(** Modelled from the spec: the score a scorer attaches to a ticket, "an
    explicit presence flag" and a numeric value.  [analyze] reads it as
    [issue.Sentiment] and converts the value with [float64(...)]; the field
    is declared in a revision of the package that is not among the
    sources. *)
Record Sentiment : Type := {
  HasScore : bool;
  Score : float
}.

Record Issue : Type := {
  Key : string;
  IssueFields : Fields;
  IssueChangelog : Changelog;
  IssueSentiment : Sentiment
}.

(** [CalculateNumberOfWords]. *)
Definition CalculateNumberOfWords (s : string) : Z :=
  let lines := strings.Split s strings.newline in
  fold_left
    (fun wordCount line =>
       wordCount + Z.of_nat (List.length (strings.Split (strings.TrimSpace line) strings.space)))
    lines 0.

(** The [switch ext] shared by both classifiers. *)
Definition switch_ext (ext : string) : AttachmentType :=
  if String.eqb ext "md" then Text
  else if String.eqb ext "txt" then Text
  else if String.eqb ext "pdf" then Text
  else if String.eqb ext "png" then Image
  else if String.eqb ext "jpg" then Image
  else if String.eqb ext "jpeg" then Image
  else if String.eqb ext "gif" then Image
  else if String.eqb ext "bmp" then Image
  else if String.eqb ext "mp4" then Video
  else if String.eqb ext "avi" then Video
  else if String.eqb ext "mkv" then Video
  else Code.

(** [GetAttachmentType]: [ext := filename[strings.LastIndex(filename, "."):]]. *)
Definition GetAttachmentType (filename : string) : outcome AttachmentType :=
  ext <- strings.slice_from filename (strings.LastIndex filename ".") ;;
  Returns (switch_ext ext).

End jira.

(** ** Package [analyze] *)

Module analyze.
Import jira.

(** [calculateNumberOfWords]. *)
Definition calculateNumberOfWords (s : string) : Z :=
  let lines := strings.Split s strings.newline in
  fold_left
    (fun wordCount line =>
       wordCount + Z.of_nat (List.length (strings.Split (strings.TrimSpace line) strings.space)))
    lines 0.

(** [getAttachmentType]: [extIndex := strings.LastIndex(filename, ".");
    ext := filename[(extIndex + 1):]]. *)
Definition getAttachmentType (filename : string) : outcome AttachmentType :=
  let extIndex := strings.LastIndex filename "." in
  ext <- strings.slice_from filename (extIndex + 1) ;;
  Returns (switch_ext ext).

(** [calculateTimeDifference]: the duration in hours between two
    timestamps. *)
Definition calculateTimeDifference (t1 t2 : JTime) : float :=
  time.Hours (time.Sub t1 t2).

(** [isIssueHighPriority]. *)
Definition isIssueHighPriority (issue : Issue) : bool :=
  String.eqb (PriorityID (FieldPriority (IssueFields issue))) "1"
  || String.eqb (PriorityID (FieldPriority (IssueFields issue))) "2".

(** The condition of the [if] in [timeToResolve]. *)
Definition isOpenToClosed (item : ChangelogHistoryItem) : bool :=
  String.eqb (Field item) "status" && String.eqb (FromString item) "Open"
  && String.eqb (ToString item) "Closed".

(** The value [timeToResolve] returns when the scan finds nothing. *)
Definition unresolved : float := (-1)%float.

(** The inner loop of [timeToResolve] over the items of one history:
    [Some v] when it executes [return v]. *)
Fixpoint timeToResolve_items (issue : Issue) (history : ChangelogHistory)
         (items : list ChangelogHistoryItem) : option float :=
  match items with
  | [] => None
  | item :: rest =>
      if isOpenToClosed item
      then Some (calculateTimeDifference (HistoryCreated history) (Created (IssueFields issue)))
      else timeToResolve_items issue history rest
  end.

(** The outer loop of [timeToResolve]. *)
Fixpoint timeToResolve_histories (issue : Issue) (histories : list ChangelogHistory) : float :=
  match histories with
  | [] => unresolved
  | history :: rest =>
      match timeToResolve_items issue history (Items history) with
      | Some v => v
      | None => timeToResolve_histories issue rest
      end
  end.

(** [timeToResolve]. *)
Definition timeToResolve (issue : Issue) : float :=
  timeToResolve_histories issue (Histories (IssueChangelog issue)).

(** The guard [timeDiff > -1 && isIssueHighPriority(issue)]. *)
Definition passes (timeDiff : float) (issue : Issue) : bool :=
  PrimFloat.ltb (-1)%float timeDiff && isIssueHighPriority issue.

(** The [switch field] of [WordinessAnalysis]: it has no [default] case. *)
Definition wordiness_switch (field : string) (issue : Issue)
           (wordCountSlice : list float) : list float :=
  if String.eqb field "description" then
    wordCountSlice ++ [GoFloat.of_int (calculateNumberOfWords (Description (IssueFields issue)))]
  else if String.eqb field "summary" then
    wordCountSlice ++ [GoFloat.of_int (calculateNumberOfWords (Summary (IssueFields issue)))]
  else if String.eqb field "comment" then
    let wc := fold_left (fun wc comment => wc + calculateNumberOfWords (Body comment))
                        (CommentList (FieldComments (IssueFields issue))) 0 in
    wordCountSlice ++ [GoFloat.of_int wc]
  else wordCountSlice.

(** The body of the loop of [WordinessAnalysis], on the two slices. *)
Definition wordiness_step (field : string) (acc : list float * list float) (issue : Issue)
  : list float * list float :=
  let '(wordCountSlice, timeDiffs) := acc in
  let timeDiff := timeToResolve issue in
  if passes timeDiff issue
  then (wordiness_switch field issue wordCountSlice, timeDiffs ++ [timeDiff])
  else (wordCountSlice, timeDiffs).

(** [WordinessAnalysis]. *)
Definition WordinessAnalysis (issues : list Issue) (field : string)
  : list float * list float :=
  fold_left (wordiness_step field) issues ([], []).

(** The body of the loop of [AttachmentsAnalysis]. *)
Definition attachments_step (acc : list float * list float) (issue : Issue)
  : list float * list float :=
  let '(withAttchTimeDiffs, withoutAttchTimeDiffs) := acc in
  let timeDiff := timeToResolve issue in
  if passes timeDiff issue
  then if 0 <? Z.of_nat (List.length (Attachments (IssueFields issue)))
       then (withAttchTimeDiffs ++ [timeDiff], withoutAttchTimeDiffs)
       else (withAttchTimeDiffs, withoutAttchTimeDiffs ++ [timeDiff])
  else (withAttchTimeDiffs, withoutAttchTimeDiffs).

(** [AttachmentsAnalysis]. *)
Definition AttachmentsAnalysis (issues : list Issue) : list float * list float :=
  fold_left attachments_step issues ([], []).

(** The body of the loop of [SentimentScoreAnalysis]; [float64(...)] of
    the score is the score. *)
Definition sentiment_step (acc : list float * list float) (issue : Issue)
  : list float * list float :=
  let '(scores, timeDiffs) := acc in
  let timeDiff := timeToResolve issue in
  if passes timeDiff issue && HasScore (IssueSentiment issue)
  then (scores ++ [Score (IssueSentiment issue)], timeDiffs ++ [timeDiff])
  else (scores, timeDiffs).

(** [SentimentScoreAnalysis]. *)
Definition SentimentScoreAnalysis (issues : list Issue) : list float * list float :=
  fold_left sentiment_step issues ([], []).

(** [containsRegex]. *)
Definition containsRegex (s expr : string) : bool * option regexp.Error :=
  match regexp.Compile expr with
  | regexp.Err err => (false, Some err)
  | regexp.Ok regex => (regexp.FindStringIndex_found regex s, None)
  end.

(** The loop over the comments, written the same way in both detectors:
    it returns at the first error and at the first comment that matches. *)
Fixpoint contains_in_comments (expr : string) (comments : list Comment)
  : bool * option regexp.Error :=
  match comments with
  | [] => (false, None)
  | comment :: rest =>
      match containsRegex (Body comment) expr with
      | (_, Some err) => (false, Some err)
      | (true, None) => (true, None)
      | (false, None) => contains_in_comments expr rest
      end
  end.

(** The pattern of [HasStepsToReproduce], a raw string literal. *)
Definition steps_expr : string := "(\n(\s*)\*(.*)){2,}".

(** [HasStepsToReproduce]. *)
Definition HasStepsToReproduce (issue : Issue) : bool * option regexp.Error :=
  let expr := steps_expr in
  match containsRegex (Description (IssueFields issue)) expr with
  | (_, Some err) => (false, Some err)
  | (true, None) => (true, None)
  | (false, None) =>
      contains_in_comments expr (CommentList (FieldComments (IssueFields issue)))
  end.

(** The pattern of [HasStackTrace], a raw string literal. *)
Definition stack_expr : string := "^.+Exception[^\n]+\n(\s*at.+\s*\n)+".

(** [HasStackTrace]. *)
Definition HasStackTrace (issue : Issue) : bool * option regexp.Error :=
  let expr := stack_expr in
  match containsRegex (Description (IssueFields issue)) expr with
  | (_, Some err) => (false, Some err)
  | (true, None) => (true, None)
  | (false, None) =>
      contains_in_comments expr (CommentList (FieldComments (IssueFields issue)))
  end.

End analyze.

(** ** Package [plot]

    Each plotting function computes the values of its chart and hands them
    to [barchart] or to [scatter].  [StepsToReproduce] and [Stacktraces]
    are modelled whole, with their error result, over a [World] that
    answers [os.Getwd], [os.Create] and the rendering of the chart; the
    other functions are modelled up to the values they compute. *)

Module plot.

(** Modelled from the spec: the attachment categories of the revision of
    [jira] that [plot] imports ([jira.CodeAttachment], ...), whose
    declaration is not among the sources.  The spec lists image, text,
    code, video, archive, config, spreadsheet and other. *)
Inductive AttachmentType : Type :=
| ImageAttachment
| TextAttachment
| CodeAttachment
| VideoAttachment
| ArchiveAttachment
| ConfigAttachment
| SpreadsheetAttachment
| OtherAttachment.

Definition AttachmentType_eqb (a b : AttachmentType) : bool :=
  match a, b with
  | ImageAttachment, ImageAttachment
  | TextAttachment, TextAttachment
  | CodeAttachment, CodeAttachment
  | VideoAttachment, VideoAttachment
  | ArchiveAttachment, ArchiveAttachment
  | ConfigAttachment, ConfigAttachment
  | SpreadsheetAttachment, SpreadsheetAttachment
  | OtherAttachment, OtherAttachment => true
  | _, _ => false
  end.

Record Attachment : Type := {
  Filename : string;
  Type_ : AttachmentType
}.

(** Modelled from the spec: the fields of [jira.Ticket] that the plotting
    functions read; the declaration of [Ticket] is not among the sources. *)
Record Ticket : Type := {
  Key : string;
  Attachments_ : list Attachment;
  TimeToClose : float;
  HasStepsToReproduce : bool;
  HasStackTrace : bool
}.

(** A Go map: [None] is the nil map, [Some l] a map made by [make] or by a
    literal, with the entries [l]. *)
Definition gomap (K V : Type) : Type := option (list (K * V)).

Definition make {K V : Type} : gomap K V := Some [].

Section Maps.
Context {K V : Type} (eqb : K -> K -> bool) (zero : V).

Fixpoint lookup (l : list (K * V)) (k : K) : V :=
  match l with
  | [] => zero
  | (k', v) :: rest => if eqb k k' then v else lookup rest k
  end.

Fixpoint update (l : list (K * V)) (k : K) (v : V) : list (K * V) :=
  match l with
  | [] => [(k, v)]
  | (k', v') :: rest => if eqb k k' then (k, v) :: rest else (k', v') :: update rest k v
  end.

(** [m[k]]: the zero value when [k] is absent, also from the nil map. *)
Definition index (m : gomap K V) (k : K) : V :=
  match m with
  | None => zero
  | Some l => lookup l k
  end.

(** [m[k] = v]: a run-time panic on the nil map. *)
Definition assign (m : gomap K V) (k : K) (v : V) : outcome (gomap K V) :=
  match m with
  | None => Panics "assignment to entry in nil map"
  | Some l => Returns (Some (update l k v))
  end.
End Maps.

(** A [for ... range] loop whose body may panic. *)
Fixpoint for_range {A S : Type} (body : S -> A -> outcome S) (l : list A) (st : S)
  : outcome S :=
  match l with
  | [] => Returns st
  | a :: rest => st' <- body st a ;; for_range body rest st'
  end.

(** The filter [ticket.TimeToClose <= 0 || ticket.TimeToClose > 27000]
    that makes the loops [continue]. *)
Definition skipped (ticket : Ticket) : bool :=
  PrimFloat.leb (TimeToClose ticket) 0%float || PrimFloat.ltb 27000%float (TimeToClose ticket).

(** The label under which the [switch] of [Attachments] files a category. *)
Definition label (k : AttachmentType) : string :=
  match k with
  | CodeAttachment => "Code"
  | ArchiveAttachment => "Archive"
  | ImageAttachment => "Image"
  | ConfigAttachment => "Config"
  | TextAttachment => "Text"
  | SpreadsheetAttachment => "Spreadsheet"
  | _ => "Other"
  end.

Record attachments_state : Type := {
  withoutCount : Z;
  withoutTime : float;
  typeCountM : gomap AttachmentType Z;
  typeTimeM : gomap AttachmentType float
}.

(** The body of the first loop of [Attachments]. *)
Definition attachments_body (st : attachments_state) (ticket : Ticket)
  : outcome attachments_state :=
  if skipped ticket then Returns st
  else if Z.of_nat (List.length (Attachments_ ticket)) =? 0 then
    Returns {| withoutCount := withoutCount st + 1;
               withoutTime := PrimFloat.add (withoutTime st) (TimeToClose ticket);
               typeCountM := typeCountM st;
               typeTimeM := typeTimeM st |}
  else
    for_range
      (fun st a =>
         cm <- assign AttachmentType_eqb (typeCountM st) (Type_ a)
                 (index AttachmentType_eqb 0 (typeCountM st) (Type_ a) + 1) ;;
         tm <- assign AttachmentType_eqb (typeTimeM st) (Type_ a)
                 (PrimFloat.add (index AttachmentType_eqb 0%float (typeTimeM st) (Type_ a))
                                (TimeToClose ticket)) ;;
         Returns {| withoutCount := withoutCount st;
                    withoutTime := withoutTime st;
                    typeCountM := cm;
                    typeTimeM := tm |})
      (Attachments_ ticket) st.

(** [Attachments], up to the map handed to [barchart].  [result] is
    declared with [var] and never made, so it is the nil map.  The second
    loop ranges over [typeCountM]; the model visits the entries in the
    order of their first insertion. *)
Definition Attachments (tickets : list Ticket) : outcome (gomap string float) :=
  let result : gomap string float := None in
  st <- for_range attachments_body tickets
          {| withoutCount := 0; withoutTime := 0%float;
             typeCountM := make; typeTimeM := make |} ;;
  result <- assign String.eqb result "Without Attachments"
              (PrimFloat.div (withoutTime st) (GoFloat.of_int (withoutCount st))) ;;
  for_range
    (fun result '(k, v) =>
       let score := PrimFloat.div (index AttachmentType_eqb 0%float (typeTimeM st) k)
                                  (GoFloat.of_int v) in
       assign String.eqb result (label k) score)
    (match typeCountM st with Some l => l | None => [] end)
    result.

(** The loop of [barchart] over its map: the bars, one per entry; none for
    the nil map. *)
Definition for_bars (vals : gomap string float) : list (string * float) :=
  match vals with
  | Some l => fold_left (fun bars kv => bars ++ [kv]) l []
  | None => []
  end.

(** The loop of [StepsToReproduce]: [(withCount, withSum, withoutSum)]. *)
Definition steps_body (st : Z * float * float) (ticket : Ticket) : Z * float * float :=
  let '(withCount, withSum, withoutSum) := st in
  if skipped ticket then (withCount, withSum, withoutSum)
  else if HasStepsToReproduce ticket
       then (withCount + 1, PrimFloat.add withSum (TimeToClose ticket), withoutSum)
       else (withCount, withSum, PrimFloat.add withoutSum (TimeToClose ticket)).

(** The map literal that [StepsToReproduce] builds after its loop. *)
Definition StepsToReproduce_bars (tickets : list Ticket) : gomap string float :=
  let '(withCount, withSum, withoutSum) :=
    fold_left steps_body tickets (0, 0%float, 0%float) in
  Some [ ("With Steps to Reproduce",
          PrimFloat.div withSum (GoFloat.of_int withCount));
         ("Without Steps to Reproduce",
          PrimFloat.div withoutSum
            (GoFloat.of_int (Z.of_nat (List.length tickets) - withCount))) ].

(** A Go [error] that is not nil, by its message; [None] is the nil
    error. *)
Definition error : Type := string.

(** What the plotting functions ask of the outside world: the working
    directory with the error of [os.Getwd]; the error of [os.Create] on a
    path; the error of rendering, as PNG into the file at a path, the bar
    chart with a title and bars. *)
Record World : Type := {
  Getwd : string * option error;
  Create : string -> option error;
  Render : string -> string -> list (string * float) -> option error
}.

Definition graphsPath : string := "resources/graphs".

(** [fmt.Sprintf] with the format of three strings separated by
    slashes. *)
Definition Sprintf3 (a b c : string) : string :=
  (a ++ "/" ++ b ++ "/" ++ c)%string.

(** [barchart]: one bar per entry of [vals] (the model ranges over the
    entries in their order in the map), then [os.Create], whose error is
    returned, then the rendering, whose error is the result. *)
Definition barchart (w : World) (title filepath : string) (vals : gomap string float)
  : option error :=
  let bars := for_bars vals in
  match Create w filepath with
  | Some err => Some err
  | None => Render w filepath title bars
  end.


End plot.

(** * Properties *)

(** ** Resolution time *)

Section ResolutionTime.
Import jira analyze.

(** A changelog item that records the transition of the status from
    [Open] to [Closed], in those very words. *)
Definition open_to_closed (item : ChangelogHistoryItem) : Prop :=
  Field item = "status" /\ FromString item = "Open" /\ ToString item = "Closed".

Definition closes (history : ChangelogHistory) : Prop :=
  exists item, In item (Items history) /\ open_to_closed item.

Lemma isOpenToClosed_iff (item : ChangelogHistoryItem) :
  isOpenToClosed item = true <-> open_to_closed item.
Proof.
  unfold isOpenToClosed, open_to_closed.
  rewrite !andb_true_iff, !String.eqb_eq. tauto.
Qed.

Lemma timeToResolve_items_none issue history items :
  (forall item, In item items -> ~ open_to_closed item) ->
  timeToResolve_items issue history items = None.
Proof.
  induction items as [|item rest IH]; intros Hnone; simpl; [reflexivity|].
  destruct (isOpenToClosed item) eqn:E.
  - apply isOpenToClosed_iff in E. exfalso. apply (Hnone item); [now left | exact E].
  - apply IH. intros i Hi. apply Hnone. now right.
Qed.

Lemma timeToResolve_items_some issue history items :
  (exists item, In item items /\ open_to_closed item) ->
  timeToResolve_items issue history items
  = Some (calculateTimeDifference (HistoryCreated history) (Created (IssueFields issue))).
Proof.
  induction items as [|item rest IH]; intros [i [Hin Hi]]; simpl.
  - destruct Hin.
  - destruct (isOpenToClosed item) eqn:E; [reflexivity|].
    apply IH. destruct Hin as [->|Hin].
    + apply isOpenToClosed_iff in Hi. congruence.
    + exists i. split; assumption.
Qed.

Lemma timeToResolve_histories_none issue histories :
  (forall history, In history histories -> ~ closes history) ->
  timeToResolve_histories issue histories = unresolved.
Proof.
  induction histories as [|h rest IH]; intros Hnone; simpl; [reflexivity|].
  rewrite timeToResolve_items_none.
  - apply IH. intros h' Hh'. apply Hnone. now right.
  - intros item Hin Hq. apply (Hnone h); [now left|]. exists item. split; assumption.
Qed.

Lemma timeToResolve_histories_first issue before history after :
  (forall h, In h before -> ~ closes h) ->
  closes history ->
  timeToResolve_histories issue (before ++ history :: after)
  = calculateTimeDifference (HistoryCreated history) (Created (IssueFields issue)).
Proof.
  induction before as [|h rest IH]; intros Hnone Hcl; simpl.
  - now rewrite timeToResolve_items_some.
  - rewrite timeToResolve_items_none.
    + apply IH; [|exact Hcl]. intros h' Hh'. apply Hnone. now right.
    + intros item Hin Hq. apply (Hnone h); [now left|]. exists item. split; assumption.
Qed.

(** An issue none of whose histories records an [Open] to [Closed]
    transition. *)
Definition never_closed (issue : Issue) : Prop :=
  forall history, In history (Histories (IssueChangelog issue)) -> ~ closes history.

Lemma timeToResolve_never_closed issue :
  never_closed issue -> timeToResolve issue = unresolved.
Proof. apply timeToResolve_histories_none. Qed.

Lemma never_closed_fails issue : never_closed issue -> passes (timeToResolve issue) issue = false.
Proof. intros H. rewrite (timeToResolve_never_closed _ H). reflexivity. Qed.

Lemma low_priority_fails issue timeDiff :
  PriorityID (FieldPriority (IssueFields issue)) <> "1" ->
  PriorityID (FieldPriority (IssueFields issue)) <> "2" ->
  passes timeDiff issue = false.
Proof.
  intros H1 H2. unfold passes, isIssueHighPriority.
  apply String.eqb_neq in H1, H2. rewrite H1, H2. apply andb_false_r.
Qed.

End ResolutionTime.

(** The scenario tickets: created at instant [0]; ticket A goes from [Open]
    to [In Progress] at once and from [In Progress] to [Closed] after five
    hours; ticket B is closed directly from [Open] after five hours, and
    closed again after a reopening at nine hours. *)
Module Scenario.
Import jira.

Definition status_change (from to : string) : ChangelogHistoryItem :=
  {| Field := "status"; FieldType := "jira"; From := ""; FromString := from;
     To := ""; ToString := to |}.

Definition assignee_change : ChangelogHistoryItem :=
  {| Field := "assignee"; FieldType := "jira"; From := ""; FromString := "Open";
     To := ""; ToString := "Closed" |}.

Definition history_at (hours : Z) (items : list ChangelogHistoryItem) : ChangelogHistory :=
  {| HistoryID := ""; HistoryCreated := hours * time.Hour; Items := items |}.

Definition ticket (priority : string) (attachments : list Attachment)
           (histories : list ChangelogHistory) : Issue :=
  {| Key := "TG-1";
     IssueFields :=
       {| Summary := "Crash on save";
          Description := "The editor crashes when saving";
          Created := 0;
          Attachments := attachments;
          FieldComments := {| CommentList := [ {| Body := "me too"; CommentCreated := 0 |} ] |};
          FieldPriority := {| PriorityID := priority; PriorityName := "" |} |};
     IssueChangelog := {| Histories := histories |};
     IssueSentiment := {| HasScore := true; Score := 0.5%float |} |}.

Definition via_in_progress : list ChangelogHistory :=
  [ history_at 0 [status_change "Open" "In Progress"];
    history_at 5 [status_change "In Progress" "Closed"] ].

Definition closed_directly : list ChangelogHistory :=
  [ history_at 1 [assignee_change];
    history_at 5 [assignee_change; status_change "Open" "Closed"];
    history_at 7 [status_change "Closed" "Open"];
    history_at 9 [status_change "Open" "Closed"] ].

Definition ticketA : Issue := ticket "1" [] via_in_progress.
Definition ticketB : Issue := ticket "2" [] closed_directly.
Definition ticketMinor : Issue := ticket "3" [] closed_directly.

End Scenario.

(** *** Hours as [float64] *)

Section HoursFacts.

(** Rounding a positive number never yields the negative zero. *)
Lemma binary_round_aux_sign prec emax mx ex lx :
  SpecFloat.binary_round_aux prec emax false mx ex lx <> SpecFloat.S754_zero true.
Proof.
  unfold SpecFloat.binary_round_aux.
  destruct (SpecFloat.shr_fexp prec emax mx ex lx) as [mrs e'].
  destruct (SpecFloat.shr_fexp prec emax _ e' SpecFloat.loc_Exact) as [mrs' e''].
  destruct (SpecFloat.shr_m mrs'); try discriminate.
  destruct (e'' <=? emax - prec); discriminate.
Qed.

Lemma of_nonneg_not_negative_zero n :
  FloatOps.Prim2SF (GoFloat.of_nonneg n) <> SpecFloat.S754_zero true.
Proof.
  unfold GoFloat.of_nonneg. rewrite FloatAxioms.of_uint63_spec.
  unfold SpecFloat.binary_normalize.
  assert (H := Uint63.to_Z_bounded (Uint63.of_Z n)).
  destruct (Uint63.to_Z (Uint63.of_Z n)) as [|m|m]; [discriminate| |lia].
  unfold SpecFloat.binary_round.
  destruct (SpecFloat.shl_align _ _ _) as [mz ez]. apply binary_round_aux_sign.
Qed.

(** Adding the positive zero changes nothing but the negative zero. *)
Lemma add_zero_r x :
  FloatOps.Prim2SF x <> SpecFloat.S754_zero true -> PrimFloat.add x 0%float = x.
Proof.
  intros H. rewrite <- (FloatAxioms.SF2Prim_Prim2SF (PrimFloat.add x 0%float)).
  rewrite <- (FloatAxioms.SF2Prim_Prim2SF x) at 2. f_equal.
  rewrite FloatAxioms.add_spec.
  change (FloatOps.Prim2SF 0%float) with (SpecFloat.S754_zero false).
  unfold FloatAxioms.SF64add, SpecFloat.SFadd.
  destruct (FloatOps.Prim2SF x) as [[|]| | |]; try reflexivity. congruence.
Qed.

(** [time.Sub] is the difference brought back into the range of [int64]. *)
Lemma Sub_saturated t u :
  time.Sub t u = Z.max (- 2 ^ 63) (Z.min (2 ^ 63 - 1) (t - u)).
Proof.
  unfold time.Sub, time.minDuration, time.maxDuration.
  destruct (Z.ltb_spec (t - u) (- 2 ^ 63)); [lia|].
  destruct (Z.ltb_spec (2 ^ 63 - 1) (t - u)); lia.
Qed.

(** A whole number of hours is converted exactly as that number is. *)
Lemma Hours_whole hours :
  0 <= hours -> time.Hours (hours * 3600000000000) = GoFloat.of_int hours.
Proof.
  intros H. unfold time.Hours, time.Hour.
  change (3600 * 1000000000) with 3600000000000.
  rewrite Z.quot_mul, Z.rem_mul by lia.
  change (PrimFloat.div (GoFloat.of_int 0) 3600000000000%float) with 0%float.
  unfold GoFloat.of_int. replace (hours <? 0) with false by (symmetry; apply Z.ltb_ge; lia).
  apply add_zero_r, of_nonneg_not_negative_zero.
Qed.

End HoursFacts.

(** Tickets with a creation date: instants are counted in hours from Go's
    zero time, which is what [UnmarshalJSON] stores for a [null] date. *)
Module Lifetimes.
Import jira.

Definition minutes (n : Z) : JTime := n * 60000000000.

Definition closing (closed : JTime) : ChangelogHistory :=
  {| HistoryID := "1"; HistoryCreated := closed;
     Items := [Scenario.status_change "Open" "Closed"] |}.

Definition closed_between (created closed : JTime) : Issue :=
  {| Key := "TG-4";
     IssueFields :=
       {| Summary := "Crash on save";
          Description := "The editor crashes when saving";
          Created := created;
          Attachments := [];
          FieldComments := {| CommentList := [] |};
          FieldPriority := {| PriorityID := "1"; PriorityName := "Critical" |} |};
     IssueChangelog := {| Histories := [closing closed] |};
     IssueSentiment := {| HasScore := false; Score := 0%float |} |}.

(** Created at 17 680 000 h and 30 min, closed five hours and a half
    later. *)
Definition five_and_a_half : Issue :=
  closed_between (minutes (17680000 * 60 + 30)) (minutes (17680006 * 60)).

(** Created at 17 680 000 h, closed 48 hours later. *)
Definition two_days : Issue :=
  closed_between (minutes (17680000 * 60)) (minutes (17680048 * 60)).

(** No creation date (the zero time), closed at 17 680 000 h, some two
    thousand years later. *)
Definition null_created : Issue := closed_between 0 (minutes (17680000 * 60)).

End Lifetimes.

(** C1, on the code.  The duration is an [int64] count of nanoseconds, so
    it stops at about 292 years: the ticket without creation date, closed
    17 680 000 hours after the zero time, resolves in 2 562 047.79 hours. *)
Lemma timeToResolve_saturates :
  jira.Histories (jira.IssueChangelog Lifetimes.null_created)
  = [Lifetimes.closing (17680000 * 3600000000000)]
  /\ jira.Created (jira.IssueFields Lifetimes.null_created) = 0
  /\ analyze.timeToResolve Lifetimes.null_created = 0x1.38bffe4ddaebep+21%float
  /\ PrimFloat.ltb (analyze.timeToResolve Lifetimes.null_created) 2562048%float = true
  /\ PrimFloat.eqb (analyze.timeToResolve Lifetimes.null_created) (GoFloat.of_int 17680000)
     = false.
Proof.
  repeat split; vm_compute; reflexivity.
Qed.

(** C1, amended.  [timeToResolve] scans the histories in stored order.
    When a history records an [Open] to [Closed] status transition and none
    before it does, the result is the time from the creation of the issue
    to that history, counted in nanoseconds, brought back into the range of
    [int64] (about 292 years either way), and converted to hours in
    [float64]: the whole hours plus the remaining nanoseconds divided by
    the nanoseconds of an hour.  For a closure a whole number of hours
    after the creation, within that range, it is exactly that number.
    When no history records such a transition (the empty changelog
    included), the result is the unresolved value [-1].  Only the items
    whose field is [status], whose old value is [Open] and whose new value
    is [Closed] count. *)
Theorem timeToResolve_elapsed_hours (issue : jira.Issue) :
  (forall before history after elapsed,
      jira.Histories (jira.IssueChangelog issue) = before ++ history :: after ->
      (forall h, In h before -> ~ closes h) ->
      closes history ->
      elapsed = jira.HistoryCreated history - jira.Created (jira.IssueFields issue) ->
      (forall d, d = Z.max (- 2 ^ 63) (Z.min (2 ^ 63 - 1) elapsed) ->
                 analyze.timeToResolve issue
                 = PrimFloat.add
                     (GoFloat.of_int (Z.quot d 3600000000000))
                     (PrimFloat.div (GoFloat.of_int (Z.rem d 3600000000000))
                                    3600000000000%float))
      /\ (forall hours, 0 <= hours <= 2562047 -> elapsed = hours * 3600000000000 ->
                        analyze.timeToResolve issue = GoFloat.of_int hours))
  /\ (never_closed issue -> analyze.timeToResolve issue = (-1)%float).
Proof.
  split.
  - intros before history after elapsed Hlog Hbefore Hcl Hel.
    assert (H : analyze.timeToResolve issue
                = time.Hours (Z.max (- 2 ^ 63) (Z.min (2 ^ 63 - 1) elapsed))).
    { unfold analyze.timeToResolve. rewrite Hlog.
      rewrite (timeToResolve_histories_first issue before history after Hbefore Hcl).
      unfold analyze.calculateTimeDifference. now rewrite Sub_saturated, Hel. }
    split.
    + intros d ->. exact H.
    + intros hours Hrange Hhours. rewrite H, Hhours.
      replace (Z.max (- 2 ^ 63) (Z.min (2 ^ 63 - 1) (hours * 3600000000000)))
        with (hours * 3600000000000) by lia.
      apply Hours_whole. lia.
  - apply timeToResolve_never_closed.
Qed.

(** Five hours and a half, two days, the first closure of ticket B, and
    ticket A, which reaches [Closed] from [In Progress]. *)
Lemma timeToResolve_scenario :
  analyze.timeToResolve Lifetimes.five_and_a_half = 5.5%float
  /\ analyze.timeToResolve Lifetimes.two_days = 48%float
  /\ analyze.timeToResolve Scenario.ticketB = 5%float
  /\ analyze.timeToResolve Scenario.ticketA = (-1)%float.
Proof.
  assert (Hclosing : forall t, closes (Scenario.history_at t
                                         [Scenario.assignee_change;
                                          Scenario.status_change "Open" "Closed"])).
  { intros t. exists (Scenario.status_change "Open" "Closed"). split.
    - right. left. reflexivity.
    - repeat split. }
  assert (Hfirst : forall c, closes (Lifetimes.closing c)).
  { intros c. exists (Scenario.status_change "Open" "Closed"). split.
    - left. reflexivity.
    - repeat split. }
  split; [|split; [|split]].
  - destruct (proj1 (timeToResolve_elapsed_hours Lifetimes.five_and_a_half)
                    [] (Lifetimes.closing (Lifetimes.minutes (17680006 * 60))) []
                    (Lifetimes.minutes (17680006 * 60)
                     - Lifetimes.minutes (17680000 * 60 + 30))) as [Hd _];
      [reflexivity | intros h [] | apply Hfirst | reflexivity |].
    rewrite (Hd _ eq_refl). vm_compute. reflexivity.
  - destruct (proj1 (timeToResolve_elapsed_hours Lifetimes.two_days)
                    [] (Lifetimes.closing (Lifetimes.minutes (17680048 * 60))) []
                    (Lifetimes.minutes (17680048 * 60)
                     - Lifetimes.minutes (17680000 * 60))) as [_ Hh];
      [reflexivity | intros h [] | apply Hfirst | reflexivity |].
    rewrite (Hh 48); [reflexivity | lia | reflexivity].
  - destruct (proj1 (timeToResolve_elapsed_hours Scenario.ticketB)
                    [Scenario.history_at 1 [Scenario.assignee_change]]
                    (Scenario.history_at 5 [Scenario.assignee_change;
                                            Scenario.status_change "Open" "Closed"])
                    [Scenario.history_at 7 [Scenario.status_change "Closed" "Open"];
                     Scenario.history_at 9 [Scenario.status_change "Open" "Closed"]]
                    (5 * time.Hour - 0)) as [_ Hh];
      [reflexivity | | apply Hclosing | reflexivity |].
    + intros h [<-|[]] [item [[<-|[]] [H _]]]. discriminate H.
    + rewrite (Hh 5); [reflexivity | lia | reflexivity].
  - apply (proj2 (timeToResolve_elapsed_hours Scenario.ticketA)).
    intros h [<-|[<-|[]]] [item [[<-|[]] [_ [H1 H2]]]]; discriminate.
Defined.

(** ** The population filter and the aggregators *)

Section Aggregators.
Import jira analyze.

(** The tickets an aggregator keeps. *)
Definition eligible (issue : Issue) : bool := passes (timeToResolve issue) issue.

(** The word count that [WordinessAnalysis] takes from a ticket, for the
    three field selectors it knows. *)
Definition word_count (field : string) (issue : Issue) : Z :=
  if String.eqb field "description" then calculateNumberOfWords (Description (IssueFields issue))
  else if String.eqb field "summary" then calculateNumberOfWords (Summary (IssueFields issue))
  else fold_left (fun wc comment => wc + calculateNumberOfWords (Body comment))
                 (CommentList (FieldComments (IssueFields issue))) 0.

Definition supported (field : string) : Prop :=
  field = "description" \/ field = "summary" \/ field = "comment".

Lemma wordiness_switch_supported field issue l :
  supported field ->
  wordiness_switch field issue l = l ++ [GoFloat.of_int (word_count field issue)].
Proof.
  unfold wordiness_switch, word_count.
  intros [-> | [-> | ->]]; reflexivity.
Qed.

Lemma wordiness_switch_unsupported field issue l :
  ~ supported field -> wordiness_switch field issue l = l.
Proof.
  unfold wordiness_switch, supported. intros H.
  destruct (String.eqb_spec field "description"); [tauto|].
  destruct (String.eqb_spec field "summary"); [tauto|].
  destruct (String.eqb_spec field "comment"); [tauto|]. reflexivity.
Qed.

Lemma wordiness_fold_supported field issues ws ts :
  supported field ->
  fold_left (wordiness_step field) issues (ws, ts)
  = (ws ++ map (fun i => GoFloat.of_int (word_count field i)) (filter eligible issues),
     ts ++ map timeToResolve (filter eligible issues)).
Proof.
  intros Hf. revert ws ts.
  induction issues as [|issue rest IH]; intros ws ts; simpl.
  - now rewrite !app_nil_r.
  - change (passes (timeToResolve issue) issue) with (eligible issue).
    destruct (eligible issue) eqn:E.
    + rewrite IH, wordiness_switch_supported by exact Hf.
      simpl. now rewrite <- !app_assoc.
    + apply IH.
Qed.

Lemma wordiness_fold_unsupported field issues ws ts :
  ~ supported field ->
  fold_left (wordiness_step field) issues (ws, ts)
  = (ws, ts ++ map timeToResolve (filter eligible issues)).
Proof.
  intros Hf. revert ws ts.
  induction issues as [|issue rest IH]; intros ws ts; simpl.
  - now rewrite app_nil_r.
  - change (passes (timeToResolve issue) issue) with (eligible issue).
    destruct (eligible issue) eqn:E.
    + rewrite IH, wordiness_switch_unsupported by exact Hf.
      simpl. now rewrite <- app_assoc.
    + apply IH.
Qed.

Definition scored (issue : Issue) : bool := eligible issue && HasScore (IssueSentiment issue).

Lemma sentiment_fold issues ss ts :
  fold_left sentiment_step issues (ss, ts)
  = (ss ++ map (fun i => Score (IssueSentiment i)) (filter scored issues),
     ts ++ map timeToResolve (filter scored issues)).
Proof.
  revert ss ts.
  induction issues as [|issue rest IH]; intros ss ts; simpl.
  - now rewrite !app_nil_r.
  - change (passes (timeToResolve issue) issue && HasScore (IssueSentiment issue))
      with (scored issue).
    destruct (scored issue) eqn:E.
    + rewrite IH. simpl. now rewrite <- !app_assoc.
    + apply IH.
Qed.

(** A ticket that does not pass the guard leaves every accumulator as it
    was. *)
Lemma steps_skip field issue :
  eligible issue = false ->
  (forall acc, wordiness_step field acc issue = acc)
  /\ (forall acc, attachments_step acc issue = acc)
  /\ (forall acc, sentiment_step acc issue = acc).
Proof.
  unfold eligible. intros E. repeat split; intros [a b]; simpl; now rewrite E.
Qed.

(** An issue is left out when it was never closed from [Open] or when its
    priority is neither Critical ([1]) nor Major ([2]). *)
Definition excluded (issue : Issue) : Prop :=
  never_closed issue
  \/ (PriorityID (FieldPriority (IssueFields issue)) <> "1"
      /\ PriorityID (FieldPriority (IssueFields issue)) <> "2").

Lemma excluded_not_eligible issue : excluded issue -> eligible issue = false.
Proof.
  intros [H | [H1 H2]].
  - now apply never_closed_fails.
  - now apply low_priority_fails.
Qed.

End Aggregators.

(** C2.  An issue that was never closed from [Open], or whose priority is
    neither Critical nor Major, contributes nothing: with or without it in
    the list, [WordinessAnalysis] (for any field selector),
    [AttachmentsAnalysis] and [SentimentScoreAnalysis] return the same
    series. *)
Theorem excluded_issue_contributes_nothing
        (before after : list jira.Issue) (issue : jira.Issue) (field : string) :
  excluded issue ->
  analyze.WordinessAnalysis (before ++ issue :: after) field
  = analyze.WordinessAnalysis (before ++ after) field
  /\ analyze.AttachmentsAnalysis (before ++ issue :: after)
     = analyze.AttachmentsAnalysis (before ++ after)
  /\ analyze.SentimentScoreAnalysis (before ++ issue :: after)
     = analyze.SentimentScoreAnalysis (before ++ after).
Proof.
  intros Hex. apply excluded_not_eligible in Hex.
  destruct (steps_skip field issue Hex) as [Hw [Ha Hs]].
  repeat split.
  - unfold analyze.WordinessAnalysis. rewrite !fold_left_app. simpl. now rewrite Hw.
  - unfold analyze.AttachmentsAnalysis. rewrite !fold_left_app. simpl. now rewrite Ha.
  - unfold analyze.SentimentScoreAnalysis. rewrite !fold_left_app. simpl. now rewrite Hs.
Qed.

(** A ticket of minor priority between two eligible tickets leaves the
    three analyses as they are without it. *)
Lemma excluded_minor_ticket :
  analyze.WordinessAnalysis ([Scenario.ticketB] ++ Scenario.ticketMinor :: [Scenario.ticketB])
                            "summary"
  = analyze.WordinessAnalysis ([Scenario.ticketB] ++ [Scenario.ticketB]) "summary"
  /\ analyze.AttachmentsAnalysis ([Scenario.ticketB] ++ Scenario.ticketMinor :: [Scenario.ticketB])
     = analyze.AttachmentsAnalysis ([Scenario.ticketB] ++ [Scenario.ticketB])
  /\ analyze.SentimentScoreAnalysis
       ([Scenario.ticketB] ++ Scenario.ticketMinor :: [Scenario.ticketB])
     = analyze.SentimentScoreAnalysis ([Scenario.ticketB] ++ [Scenario.ticketB]).
Proof.
  apply excluded_issue_contributes_nothing.
  right. split; discriminate.
Defined.

(** C8, on the code.  With a field selector outside the three that the
    [switch] knows, [WordinessAnalysis] appends a resolution time for every
    eligible ticket and no word count: the two series differ in length. *)
Lemma WordinessAnalysis_unknown_field_misaligned :
  analyze.WordinessAnalysis [Scenario.ticketB] "title" = ([], [5%float])
  /\ List.length (fst (analyze.WordinessAnalysis [Scenario.ticketB] "title"))
     <> List.length (snd (analyze.WordinessAnalysis [Scenario.ticketB] "title")).
Proof.
  split.
  - vm_compute. reflexivity.
  - vm_compute. discriminate.
Qed.

(** C8, amended.  For the field selectors [description], [summary] and
    [comment], the two series of [WordinessAnalysis] are the word counts and
    the resolution times of the same tickets, the eligible ones, in the
    order of the list: they have equal length and entry [i] of both
    describes the same ticket.  The same holds for [SentimentScoreAnalysis]
    on every list, over the eligible tickets that carry a score. *)
Theorem analyses_series_aligned (issues : list jira.Issue) (field : string) :
  supported field ->
  (analyze.WordinessAnalysis issues field
   = (map (fun i => GoFloat.of_int (word_count field i)) (filter eligible issues),
      map analyze.timeToResolve (filter eligible issues))
   /\ List.length (fst (analyze.WordinessAnalysis issues field))
      = List.length (snd (analyze.WordinessAnalysis issues field)))
  /\ (analyze.SentimentScoreAnalysis issues
      = (map (fun i => jira.Score (jira.IssueSentiment i)) (filter scored issues),
         map analyze.timeToResolve (filter scored issues))
      /\ List.length (fst (analyze.SentimentScoreAnalysis issues))
         = List.length (snd (analyze.SentimentScoreAnalysis issues))).
Proof.
  intros Hf.
  assert (Hw := wordiness_fold_supported field issues [] [] Hf).
  assert (Hs := sentiment_fold issues [] []).
  simpl in Hw, Hs.
  unfold analyze.WordinessAnalysis, analyze.SentimentScoreAnalysis.
  rewrite Hw, Hs. simpl. rewrite !length_map. repeat split.
Qed.

(** For the selector [comment], tickets A (unresolved), B and the minor one
    yield one word count and one resolution time, both of ticket B. *)
Lemma analyses_series_aligned_scenario :
  analyze.WordinessAnalysis [Scenario.ticketA; Scenario.ticketB; Scenario.ticketMinor] "comment"
  = ([2%float], [5%float])
  /\ analyze.SentimentScoreAnalysis [Scenario.ticketA; Scenario.ticketB; Scenario.ticketMinor]
     = ([0.5%float], [5%float]).
Proof.
  destruct (analyses_series_aligned
              [Scenario.ticketA; Scenario.ticketB; Scenario.ticketMinor] "comment")
    as [[Hw _] [Hs _]].
  - right. right. reflexivity.
  - rewrite Hw, Hs. vm_compute. split; reflexivity.
Defined.

(** ** Strings *)

Section StringFacts.

Lemma append_nil_r (s : string) : (s ++ "")%string = s.
Proof. induction s as [|c s IH]; simpl; [reflexivity | now rewrite IH]. Qed.

Lemma append_assoc (a b c : string) : ((a ++ b) ++ c)%string = (a ++ (b ++ c))%string.
Proof. induction a as [|x a IH]; simpl; [reflexivity | now rewrite IH]. Qed.

Lemma length_append (a b : string) :
  String.length (a ++ b) = (String.length a + String.length b)%nat.
Proof. induction a as [|x a IH]; simpl; [reflexivity | now rewrite IH]. Qed.

Lemma drop_append (a b : string) : strings.drop (String.length a) (a ++ b) = b.
Proof. induction a as [|x a IH]; simpl; [reflexivity | exact IH]. Qed.

(** Number of occurrences of a byte. *)
Fixpoint count (c : ascii) (s : string) : nat :=
  match s with
  | EmptyString => O
  | String x s' => if Ascii.eqb x c then S (count c s') else count c s'
  end.

Lemma count_append c a b : count c (a ++ b) = (count c a + count c b)%nat.
Proof.
  induction a as [|x a IH]; simpl; [reflexivity|].
  destruct (Ascii.eqb x c); simpl; now rewrite IH.
Qed.

Lemma Split_cons s sep : exists l ls, strings.Split s sep = l :: ls.
Proof.
  destruct s as [|c s]; simpl; [now eexists; eexists|].
  destruct (Ascii.eqb c sep); [now eexists; eexists|].
  destruct (strings.Split s sep); now eexists; eexists.
Qed.

(** [strings.Split] yields one piece more than there are separators. *)
Lemma Split_length s sep : List.length (strings.Split s sep) = S (count sep s).
Proof.
  induction s as [|c s IH]; simpl; [reflexivity|].
  destruct (Ascii.eqb c sep); simpl; [now rewrite IH|].
  destruct (strings.Split s sep) as [|l ls]; simpl in *; [discriminate | exact IH].
Qed.

Lemma Split_no_sep s sep : count sep s = O -> strings.Split s sep = [s].
Proof.
  induction s as [|c s IH]; simpl; [reflexivity|].
  destruct (Ascii.eqb c sep); [discriminate|].
  intros H. now rewrite (IH H).
Qed.

(** Splitting distributes over a separator. *)
Lemma Split_append a b sep :
  strings.Split (a ++ String sep b) sep = strings.Split a sep ++ strings.Split b sep.
Proof.
  induction a as [|c a IH]; simpl.
  - now rewrite Ascii.eqb_refl.
  - destruct (Ascii.eqb c sep); [now rewrite IH|].
    rewrite IH. destruct (Split_cons a sep) as [l [ls ->]]. reflexivity.
Qed.

(** The one-byte white space that can stand inside a line. *)
Definition blank_char (c : ascii) : bool :=
  existsb (Ascii.eqb c) ["009"; "011"; "012"; "013"; " "]%char.

Fixpoint blank (s : string) : bool :=
  match s with
  | EmptyString => true
  | String c s' => blank_char c && blank s'
  end.

Lemma blank_char_cases c :
  blank_char c = true ->
  c = "009"%char \/ c = "011"%char \/ c = "012"%char \/ c = "013"%char \/ c = " "%char.
Proof.
  unfold blank_char. cbn [existsb]. rewrite !orb_true_iff, !Ascii.eqb_eq. intuition discriminate.
Qed.

Lemma space_width_blank c s :
  blank_char c = true -> strings.space_width strings.space_encodings (String c s) = 1%nat.
Proof.
  intros H. apply blank_char_cases in H.
  destruct H as [-> | [-> | [-> | [-> | ->]]]]; destruct s; reflexivity.
Qed.

Lemma trim_left_blank s fuel :
  blank s = true -> (String.length s <= fuel)%nat ->
  strings.trim_left strings.space_encodings fuel s = "".
Proof.
  revert s. induction fuel as [|fuel IH]; intros s Hb Hlen.
  - destruct s; [reflexivity | simpl in Hlen; lia].
  - destruct s as [|c s]; [reflexivity|].
    simpl in Hb. apply andb_true_iff in Hb. destruct Hb as [Hc Hs].
    cbn [strings.trim_left]. rewrite (space_width_blank c s Hc).
    cbn [strings.drop]. apply IH; [exact Hs | simpl in Hlen; lia].
Qed.

(** A line of blanks trims to the empty string. *)
Lemma TrimSpace_blank s : blank s = true -> strings.TrimSpace s = "".
Proof.
  intros H. unfold strings.TrimSpace, strings.TrimLeftSpace.
  rewrite trim_left_blank by (trivial; lia). reflexivity.
Qed.

Lemma blank_no_newline s : blank s = true -> count strings.newline s = O.
Proof.
  induction s as [|c s IH]; simpl; [reflexivity|].
  intros H. apply andb_true_iff in H. destruct H as [Hc Hs].
  apply blank_char_cases in Hc.
  destruct Hc as [-> | [-> | [-> | [-> | ->]]]]; simpl; auto.
Qed.

(** *** [strings.LastIndex] of a dot *)

Lemma prefix_dot c s : String.prefix "." (String c s) = Ascii.eqb c ".".
Proof.
  change (String.prefix "." (String c s))
    with (if ascii_dec "." c then String.prefix "" s else false).
  destruct (ascii_dec "." c) as [<-|Hne].
  - destruct s; reflexivity.
  - symmetry. apply Ascii.eqb_neq. congruence.
Qed.

Lemma last_index_no_dot s i acc :
  count "." s = O -> strings.last_index_from s "." i acc = acc.
Proof.
  revert i acc. induction s as [|c s IH]; intros i acc H.
  - reflexivity.
  - cbn [strings.last_index_from]. rewrite prefix_dot.
    simpl in H. destruct (Ascii.eqb c "."); [discriminate|]. now apply IH.
Qed.

Lemma last_index_last_dot a ext i acc :
  count "." ext = O ->
  strings.last_index_from (a ++ String "." ext) "." i acc = i + strings.len a.
Proof.
  intros Hext. revert i acc. induction a as [|c a IH]; intros i acc.
  - cbn [append strings.last_index_from]. rewrite prefix_dot, Ascii.eqb_refl.
    rewrite last_index_no_dot by exact Hext. unfold strings.len. simpl. lia.
  - cbn [append strings.last_index_from]. rewrite IH.
    unfold strings.len. cbn [String.length]. lia.
Qed.

Lemma last_index_bounds s i acc :
  acc < i ->
  acc <= strings.last_index_from s "." i acc < i + strings.len s.
Proof.
  revert i acc. induction s as [|c s IH]; intros i acc Hlt.
  - unfold strings.len. simpl. lia.
  - cbn [strings.last_index_from]. rewrite prefix_dot.
    unfold strings.len in *. cbn [String.length].
    destruct (Ascii.eqb c ".").
    + specialize (IH (i + 1) i). lia.
    + specialize (IH (i + 1) acc). lia.
Qed.

Lemma slice_from_after a b :
  strings.slice_from (a ++ b) (strings.len a) = Returns b.
Proof.
  unfold strings.slice_from, strings.len. rewrite length_append.
  replace (Z.of_nat (String.length a) <? 0) with false by (symmetry; apply Z.ltb_ge; lia).
  replace (Z.of_nat (String.length a + String.length b) <? Z.of_nat (String.length a))
    with false by (symmetry; apply Z.ltb_ge; lia).
  simpl. now rewrite Nat2Z.id, drop_append.
Qed.

End StringFacts.

(** ** The attachment classifier *)

Section Classifier.
Import jira.

Definition text_extensions : list string := ["md"; "txt"; "pdf"].
Definition image_extensions : list string := ["png"; "jpg"; "jpeg"; "gif"; "bmp"].
Definition video_extensions : list string := ["mp4"; "avi"; "mkv"].

Lemma switch_ext_table ext :
  (In ext text_extensions -> switch_ext ext = Text)
  /\ (In ext image_extensions -> switch_ext ext = Image)
  /\ (In ext video_extensions -> switch_ext ext = Video)
  /\ (~ In ext (text_extensions ++ image_extensions ++ video_extensions) ->
      switch_ext ext = Code).
Proof.
  repeat split.
  - simpl. intros H. repeat (destruct H as [<- | H]; [reflexivity|]). destruct H.
  - simpl. intros H. repeat (destruct H as [<- | H]; [reflexivity|]). destruct H.
  - simpl. intros H. repeat (destruct H as [<- | H]; [reflexivity|]). destruct H.
  - intros H. unfold switch_ext.
    repeat match goal with
           | |- context [String.eqb ext ?e] =>
               destruct (String.eqb_spec ext e);
               [exfalso; apply H; subst ext; simpl; tauto|]
           end.
    reflexivity.
Qed.

Lemma getAttachmentType_after_dot base ext :
  count "." ext = O ->
  analyze.getAttachmentType (base ++ "." ++ ext) = Returns (switch_ext ext).
Proof.
  intros H. unfold analyze.getAttachmentType, strings.LastIndex.
  change (base ++ "." ++ ext)%string with (base ++ String "." ext)%string.
  rewrite (last_index_last_dot base ext 0 (-1) H).
  replace (base ++ String "." ext)%string with ((base ++ ".") ++ ext)%string
    by (now rewrite append_assoc).
  replace (0 + strings.len base + 1) with (strings.len (base ++ "."))
    by (unfold strings.len; rewrite length_append; simpl; lia).
  now rewrite slice_from_after.
Qed.

Lemma getAttachmentType_whole_name name :
  count "." name = O ->
  analyze.getAttachmentType name = Returns (switch_ext name).
Proof.
  intros H. unfold analyze.getAttachmentType, strings.LastIndex.
  rewrite (last_index_no_dot name 0 (-1) H).
  apply (f_equal (fun o => bind o (fun ext => Returns (switch_ext ext)))
                 (slice_from_after "" name)).
Qed.

Lemma getAttachmentType_total filename :
  exists t, analyze.getAttachmentType filename = Returns t.
Proof.
  unfold analyze.getAttachmentType, strings.LastIndex, strings.slice_from.
  assert (H := last_index_bounds filename 0 (-1) ltac:(lia)).
  replace (strings.last_index_from filename "." 0 (-1) + 1 <? 0)
    with false by (symmetry; apply Z.ltb_ge; lia).
  replace (strings.len filename <? strings.last_index_from filename "." 0 (-1) + 1)
    with false by (symmetry; apply Z.ltb_ge; lia).
  simpl. eexists. reflexivity.
Qed.

(** Without a dot in the name, [jira.GetAttachmentType] slices from [-1]. *)
Lemma GetAttachmentType_no_dot name :
  count "." name = O ->
  GetAttachmentType name = Panics "slice bounds out of range".
Proof.
  intros H. unfold GetAttachmentType, strings.LastIndex.
  now rewrite (last_index_no_dot name 0 (-1) H).
Qed.

(** With a dot in the name, [jira.GetAttachmentType] compares the
    extension together with its dot, which no case of the [switch] has. *)
Lemma GetAttachmentType_with_dot base ext :
  count "." ext = O ->
  GetAttachmentType (base ++ "." ++ ext) = Returns Code.
Proof.
  intros H. unfold GetAttachmentType, strings.LastIndex.
  change (base ++ "." ++ ext)%string with (base ++ String "." ext)%string.
  rewrite (last_index_last_dot base ext 0 (-1) H).
  replace (0 + strings.len base) with (strings.len base) by lia.
  now rewrite slice_from_after.
Qed.

End Classifier.

(** C4, on the code.  [analyze.getAttachmentType] returns a category for
    every filename.  [jira.GetAttachmentType] does not: on a filename
    without a dot, such as [README], [strings.LastIndex] is [-1] and the
    slice expression panics. *)
Theorem GetAttachmentType_panics_without_dot :
  jira.GetAttachmentType "README" = Panics "slice bounds out of range"
  /\ analyze.getAttachmentType "README" = Returns jira.Code
  /\ (forall filename, exists t, analyze.getAttachmentType filename = Returns t).
Proof.
  split; [|split].
  - vm_compute. reflexivity.
  - vm_compute. reflexivity.
  - apply getAttachmentType_total.
Qed.

(** C5, on the code.  The extension is compared as it is written, so an
    upper-case [PNG] is not an image; and a name without a dot is compared
    whole, so the name [md] is a text. *)
Lemma getAttachmentType_case_sensitive :
  analyze.getAttachmentType "screenshot.PNG" = Returns jira.Code
  /\ analyze.getAttachmentType "screenshot.PNG" <> Returns jira.Image
  /\ analyze.getAttachmentType "md" = Returns jira.Text
  /\ analyze.getAttachmentType "md" <> Returns jira.Code.
Proof.
  repeat split; try (vm_compute; reflexivity); vm_compute; discriminate.
Qed.

(** C5, amended.  Let [ext] be the part of the filename after its last dot,
    or the whole filename when it has no dot.  [analyze.getAttachmentType]
    compares [ext] as written, case included: it returns Text for [md],
    [txt], [pdf]; Image for [png], [jpg], [jpeg], [gif], [bmp]; Video for
    [mp4], [avi], [mkv]; and Code for anything else. *)
Theorem getAttachmentType_by_extension (filename base ext : string) :
  filename = (base ++ "." ++ ext)%string \/ filename = ext ->
  count "." ext = O ->
  (In ext text_extensions -> analyze.getAttachmentType filename = Returns jira.Text)
  /\ (In ext image_extensions -> analyze.getAttachmentType filename = Returns jira.Image)
  /\ (In ext video_extensions -> analyze.getAttachmentType filename = Returns jira.Video)
  /\ (~ In ext (text_extensions ++ image_extensions ++ video_extensions) ->
      analyze.getAttachmentType filename = Returns jira.Code).
Proof.
  intros Hname Hext.
  assert (H : analyze.getAttachmentType filename = Returns (jira.switch_ext ext)).
  { destruct Hname as [-> | ->].
    - now apply getAttachmentType_after_dot.
    - now apply getAttachmentType_whole_name. }
  rewrite H.
  destruct (switch_ext_table ext) as [Ht [Hi [Hv Hc]]].
  repeat split; intros Hin; f_equal; auto.
Qed.

(** [trace.v1.jpeg] is an image and [Makefile] is code. *)
Lemma getAttachmentType_by_extension_examples :
  analyze.getAttachmentType "trace.v1.jpeg" = Returns jira.Image
  /\ analyze.getAttachmentType "Makefile" = Returns jira.Code.
Proof.
  split.
  - apply (getAttachmentType_by_extension "trace.v1.jpeg" "trace.v1" "jpeg");
      [left; reflexivity | reflexivity | simpl; tauto].
  - apply (getAttachmentType_by_extension "Makefile" "" "Makefile");
      [right; reflexivity | reflexivity |].
    simpl. intros H. repeat (destruct H as [H | H]; [discriminate H|]). exact H.
Defined.

(** ** Word count *)

Section WordCount.

(** The line feed, as a string. *)
Definition LF : string := String strings.newline "".

(** What one line adds to the count. *)
Definition line_words (line : string) : Z :=
  Z.of_nat (List.length (strings.Split (strings.TrimSpace line) strings.space)).

Definition total (l : list Z) : Z := fold_right Z.add 0 l.

Lemma total_app l1 l2 : total (l1 ++ l2) = total l1 + total l2.
Proof. induction l1 as [|x l1 IH]; simpl; [reflexivity | rewrite IH; lia]. Qed.

Lemma fold_line_words lines acc :
  fold_left (fun wordCount line => wordCount + line_words line) lines acc
  = acc + total (map line_words lines).
Proof.
  revert acc. induction lines as [|l lines IH]; intros acc; simpl; [lia|].
  rewrite IH. lia.
Qed.

Lemma calculateNumberOfWords_lines s :
  analyze.calculateNumberOfWords s
  = total (map line_words (strings.Split s strings.newline)).
Proof.
  unfold analyze.calculateNumberOfWords.
  change (fun wordCount line =>
            wordCount
            + Z.of_nat (List.length (strings.Split (strings.TrimSpace line) strings.space)))
    with (fun wordCount line => wordCount + line_words line).
  now rewrite fold_line_words.
Qed.

Lemma line_words_spaces line :
  line_words line = 1 + Z.of_nat (count strings.space (strings.TrimSpace line)).
Proof. unfold line_words. rewrite Split_length. lia. Qed.

Lemma line_words_blank line : blank line = true -> line_words line = 1.
Proof. intros H. unfold line_words. now rewrite (TrimSpace_blank line H). Qed.

End WordCount.

(** C9, on the code.  The empty text counts one word, and a blank line
    between two lines adds one to the count. *)
Lemma calculateNumberOfWords_counts_blank_lines :
  analyze.calculateNumberOfWords "" = 1
  /\ jira.CalculateNumberOfWords "" = 1
  /\ analyze.calculateNumberOfWords ("fix" ++ LF ++ "me") = 2
  /\ analyze.calculateNumberOfWords ("fix" ++ LF ++ LF ++ "me") = 3
  /\ analyze.calculateNumberOfWords ("fix" ++ LF ++ LF ++ "me")
     <> analyze.calculateNumberOfWords ("fix" ++ LF ++ "me").
Proof.
  repeat split; try (vm_compute; reflexivity). vm_compute. discriminate.
Qed.

(** C9, amended.  Every line of a text, blank or not, adds to the word
    count one more than the number of spaces left in it after trimming: a
    line of blanks (the empty line and the empty text included) adds
    exactly one, so a blank line put between two lines raises the count by
    one.  [jira.CalculateNumberOfWords] is the same function. *)
Theorem calculateNumberOfWords_blank_line (a b line : string) :
  blank line = true ->
  analyze.calculateNumberOfWords line = 1
  /\ analyze.calculateNumberOfWords (a ++ LF ++ line ++ LF ++ b)
     = analyze.calculateNumberOfWords (a ++ LF ++ b) + 1
  /\ (forall s,
         analyze.calculateNumberOfWords s
         = total (map (fun l => 1 + Z.of_nat (count strings.space (strings.TrimSpace l)))
                      (strings.Split s strings.newline)))
  /\ (forall s, jira.CalculateNumberOfWords s = analyze.calculateNumberOfWords s).
Proof.
  intros Hb. split; [|split; [|split]].
  - rewrite calculateNumberOfWords_lines.
    rewrite Split_no_sep by (now apply blank_no_newline).
    simpl. rewrite (line_words_blank line Hb). reflexivity.
  - rewrite !calculateNumberOfWords_lines.
    change (a ++ LF ++ line ++ LF ++ b)%string
      with (a ++ String strings.newline (line ++ String strings.newline b))%string.
    change (a ++ LF ++ b)%string with (a ++ String strings.newline b)%string.
    rewrite !Split_append.
    rewrite (Split_no_sep line) by (now apply blank_no_newline).
    rewrite !map_app, !total_app. simpl. rewrite (line_words_blank line Hb). lia.
  - intros s. rewrite calculateNumberOfWords_lines. f_equal.
    apply map_ext. intros l. apply line_words_spaces.
  - reflexivity.
Qed.

(** Two spaces between the lines [fix] and [me] make a third word. *)
Lemma calculateNumberOfWords_blank_line_example :
  analyze.calculateNumberOfWords "  " = 1
  /\ analyze.calculateNumberOfWords ("fix" ++ LF ++ "  " ++ LF ++ "me")
     = analyze.calculateNumberOfWords ("fix" ++ LF ++ "me") + 1.
Proof.
  destruct (calculateNumberOfWords_blank_line "fix" "me" "  ") as [H1 [H2 _]].
  - reflexivity.
  - split; [exact H1 | exact H2].
Defined.

(** ** Regular expressions: the matcher against what it matches *)

Section RegexpFacts.
Import regexp.

Lemma append_empty (a b : string) : (a ++ b)%string = "" -> a = "" /\ b = "".
Proof. destruct a; simpl; [tauto | discriminate]. Qed.

Lemma Matches_empty_nullable bot r s :
  Matches bot r s -> s = "" -> nullable bot r = true.
Proof.
  induction 1 as [ | | | | b r1 r2 s1 s2 _ IH1 _ IH2 | b r1 r2 t _ IH
                   | b r1 r2 t _ IH | | ]; intros Hs; simpl; try discriminate; auto.
  - apply append_empty in Hs. destruct Hs as [-> ->].
    simpl in IH2. rewrite andb_true_r in IH2. rewrite IH1, IH2; auto.
  - rewrite IH; auto.
  - rewrite IH; auto using orb_true_r.
Qed.

Lemma nullable_Matches bot r : nullable bot r = true -> Matches bot r "".
Proof.
  induction r as [ | | | c | n rs | r1 IH1 r2 IH2 | r1 IH1 r2 IH2 | r IH ];
    simpl; intros H; try discriminate.
  - constructor.
  - subst bot. constructor.
  - apply andb_true_iff in H. destruct H as [H1 H2].
    apply (MSeq bot r1 r2 "" ""); [auto|]. simpl. rewrite andb_true_r. auto.
  - apply orb_true_iff in H. destruct H as [H | H]; [apply MAltL | apply MAltR]; auto.
  - constructor.
Qed.

(** Reading one character: from what [r] matches to what its derivative
    matches. *)
Lemma Matches_deriv bot r t :
  Matches bot r t ->
  forall c s, t = String c s -> Matches false (deriv bot c r) s.
Proof.
  induction 1 as [ | | bot c' | bot n rs c' Hc | bot r1 r2 s1 s2 H1 IH1 H2 IH2
                   | bot r1 r2 u H IH | bot r1 r2 u H IH | | bot r s1 s2 H1 IH1 H2 IH2 ];
    intros c s Ht; simpl; try discriminate.
  - injection Ht as -> <-. rewrite Ascii.eqb_refl. constructor.
  - injection Ht as -> <-. rewrite Hc. constructor.
  - destruct s1 as [|c1 s1].
    + simpl in Ht, H2, IH2. rewrite andb_true_r in IH2.
      rewrite (Matches_empty_nullable _ _ _ H1 eq_refl).
      apply MAltR. now apply IH2.
    + simpl in Ht. injection Ht as -> <-.
      rewrite andb_false_r in H2.
      assert (Hseq : Matches false (Seq (deriv bot c r1) r2) (s1 ++ s2)).
      { apply MSeq; [now apply IH1 | exact H2]. }
      destruct (nullable bot r1); [now apply MAltL | exact Hseq].
  - apply MAltL. now apply IH.
  - apply MAltR. now apply IH.
  - destruct s1 as [|c1 s1].
    + simpl in Ht, IH2. rewrite andb_true_r in IH2. now apply IH2.
    + simpl in Ht. injection Ht as -> <-.
      rewrite andb_false_r in H2.
      apply MSeq; [now apply IH1 | exact H2].
Qed.

Lemma Void_Matches bot s : ~ Matches bot Void s.
Proof. intros H. inversion H. Qed.

(** And back. *)
Lemma deriv_Matches r :
  forall bot c s, Matches false (deriv bot c r) s -> Matches bot r (String c s).
Proof.
  induction r as [ | | | c' | n rs | r1 IH1 r2 IH2 | r1 IH1 r2 IH2 | r IH ];
    intros bot c s H; simpl in H.
  - now apply Void_Matches in H.
  - now apply Void_Matches in H.
  - now apply Void_Matches in H.
  - destruct (Ascii.eqb_spec c c') as [->|]; [|now apply Void_Matches in H].
    inversion H; subst. constructor.
  - destruct (in_class n rs c) eqn:E; [|now apply Void_Matches in H].
    inversion H; subst. now constructor.
  - assert (Hleft : forall t, Matches false (Seq (deriv bot c r1) r2) t ->
                              Matches bot (Seq r1 r2) (String c t)).
    { intros t Ht. inversion Ht as [ | | | | ? ? ? s1 s2 Ha Hb | | | | ]; subst.
      simpl in Hb.
      change (String c (s1 ++ s2)) with (String c s1 ++ s2)%string.
      apply MSeq; [now apply IH1|]. simpl. now rewrite andb_false_r. }
    destruct (nullable bot r1) eqn:E; [|now apply Hleft].
    inversion H; subst; [now apply Hleft|].
    change (String c s) with ("" ++ String c s)%string.
    apply MSeq; [now apply nullable_Matches|].
    simpl. rewrite andb_true_r. now apply IH2.
  - inversion H; subst; [apply MAltL; now apply IH1 | apply MAltR; now apply IH2].
  - inversion H as [ | | | | ? ? ? s1 s2 Ha Hb | | | | ]; subst.
    simpl in Hb.
    change (String c (s1 ++ s2)) with (String c s1 ++ s2)%string.
    apply MStarApp; [now apply IH|]. simpl. now rewrite andb_false_r.
Qed.

(** [match_prefix] finds exactly the prefixes that match. *)
Lemma match_prefix_Matches s :
  forall bot r,
    match_prefix bot r s = true
    <-> exists s1 s2, s = (s1 ++ s2)%string /\ Matches bot r s1.
Proof.
  induction s as [|c s IH]; intros bot r; simpl.
  - rewrite orb_false_r. split.
    + intros H. exists "", "". split; [reflexivity | now apply nullable_Matches].
    + intros [s1 [s2 [Hs H]]]. symmetry in Hs. apply append_empty in Hs.
      destruct Hs as [-> _]. now apply (Matches_empty_nullable _ _ _ H).
  - rewrite orb_true_iff, IH. split.
    + intros [H | [s1 [s2 [-> H]]]].
      * exists "", (String c s). split; [reflexivity | now apply nullable_Matches].
      * exists (String c s1), s2. split; [reflexivity | now apply deriv_Matches].
    + intros [s1 [s2 [Hs H]]]. destruct s1 as [|c1 s1].
      * left. now apply (Matches_empty_nullable _ _ _ H).
      * right. simpl in Hs. injection Hs as <- ->.
        exists s1, s2. split; [reflexivity | now apply (Matches_deriv _ _ _ H)].
Qed.

(** [search] finds exactly the substrings that match. *)
Lemma search_Matches r s :
  forall bot,
    search bot r s = true
    <-> exists before m after,
        s = (before ++ m ++ after)%string /\ Matches (bot && is_empty before) r m.
Proof.
  induction s as [|c s IH]; intros bot.
  - cbn [search]. rewrite orb_false_r, match_prefix_Matches. split.
    + intros [s1 [s2 [Hs H]]]. exists "", s1, s2. rewrite andb_true_r. now split.
    + intros [before [m [after [Hs H]]]]. symmetry in Hs.
      apply append_empty in Hs. destruct Hs as [-> Hs].
      rewrite andb_true_r in H. exists m, after. now split.
  - cbn [search]. rewrite orb_true_iff, match_prefix_Matches, IH. split.
    + intros [[s1 [s2 [Hs H]]] | [before [m [after [-> H]]]]].
      * exists "", s1, s2. rewrite andb_true_r. now split.
      * exists (String c before), m, after. simpl. split; [reflexivity|].
        now rewrite andb_false_r.
    + intros [before [m [after [Hs H]]]]. destruct before as [|c1 before].
      * left. rewrite andb_true_r in H. exists m, after. now split.
      * right. simpl in Hs, H. injection Hs as <- ->. rewrite andb_false_r in H.
        exists before, m, after. now split.
Qed.

(** What matches away from the beginning of the text matches at it. *)
Lemma Matches_anywhere r s : Matches false r s -> forall bot, Matches bot r s.
Proof.
  intros H. remember false as b eqn:Hb. revert Hb.
  induction H as [ | | | | b r1 r2 s1 s2 _ IH1 _ IH2 | b r1 r2 u _ IH
                   | b r1 r2 u _ IH | | b r0 s1 s2 _ IH1 _ IH2 ];
    intros Hb b'; try discriminate; try (now constructor).
  - subst b. apply MSeq; [now apply IH1 | now apply IH2].
  - apply MAltL. now apply IH.
  - apply MAltR. now apply IH.
  - subst b. apply MStarApp; [now apply IH1 | now apply IH2].
Qed.

End RegexpFacts.

(** ** The pattern detectors *)

Section Detectors.
Import regexp jira analyze.

(** *** The compiled patterns *)

Definition space_class : Regexp := Cls false space_ranges.

(** The characters of [w], one after the other, and then [rest]. *)
Fixpoint lits (w : string) (rest : Regexp) : Regexp :=
  match w with
  | EmptyString => rest
  | String c w' => Seq (Lit c) (lits w' rest)
  end.

(** One bullet item: a line feed, white space, a star, and what is left
    of the line. *)
Definition bullet : Regexp :=
  Seq (Lit lf) (Seq (Star space_class) (Seq (Lit "*") (Star dot))).

(** The pattern of [HasStepsToReproduce]: two bullet items or more. *)
Definition steps_re : Regexp := Seq bullet (Seq bullet (Star bullet)).

(** One stack frame: white space, [at], one character or more on the
    line, white space, a line feed. *)
Definition frame : Regexp :=
  Seq (Star space_class) (lits "at" (Seq (plus dot) (Seq (Star space_class) (Lit lf)))).

(** The pattern of [HasStackTrace]: at the beginning of the text, a line
    with [Exception] between two non-empty parts, and then one stack
    frame or more. *)
Definition stack_re : Regexp :=
  Seq Bol (Seq (plus dot) (lits "Exception" (Seq (plus dot) (Seq (Lit lf) (plus frame))))).

Lemma Compile_steps_expr : Compile steps_expr = Ok steps_re.
Proof. vm_compute. reflexivity. Qed.

Lemma Compile_stack_expr : Compile stack_expr = Ok stack_re.
Proof. vm_compute. reflexivity. Qed.

(** *** The detectors over the texts of an issue *)

(** The description and then the comment bodies, in order. *)
Definition texts (issue : Issue) : list string :=
  Description (IssueFields issue)
  :: map Body (CommentList (FieldComments (IssueFields issue))).

Lemma containsRegex_compiled expr re s :
  Compile expr = Ok re -> containsRegex s expr = (FindStringIndex_found re s, None).
Proof. intros H. unfold containsRegex. now rewrite H. Qed.

Lemma contains_in_comments_compiled expr re comments :
  Compile expr = Ok re ->
  contains_in_comments expr comments
  = (existsb (FindStringIndex_found re) (map Body comments), None).
Proof.
  intros H. induction comments as [|comment rest IH]; simpl; [reflexivity|].
  rewrite (containsRegex_compiled _ _ _ H).
  destruct (FindStringIndex_found re (Body comment)); [reflexivity | exact IH].
Qed.

Lemma HasStepsToReproduce_texts issue :
  HasStepsToReproduce issue = (existsb (FindStringIndex_found steps_re) (texts issue), None).
Proof.
  unfold HasStepsToReproduce, texts.
  rewrite (containsRegex_compiled _ _ _ Compile_steps_expr).
  rewrite (contains_in_comments_compiled _ _ _ Compile_steps_expr). simpl.
  destruct (FindStringIndex_found steps_re (Description (IssueFields issue))); reflexivity.
Qed.

Lemma HasStackTrace_texts issue :
  HasStackTrace issue = (existsb (FindStringIndex_found stack_re) (texts issue), None).
Proof.
  unfold HasStackTrace, texts.
  rewrite (containsRegex_compiled _ _ _ Compile_stack_expr).
  rewrite (contains_in_comments_compiled _ _ _ Compile_stack_expr). simpl.
  destruct (FindStringIndex_found stack_re (Description (IssueFields issue))); reflexivity.
Qed.

(** *** Strings of one class of characters *)

Fixpoint every (p : ascii -> bool) (s : string) : bool :=
  match s with
  | EmptyString => true
  | String c s' => p c && every p s'
  end.

(** What a dot matches: anything but a line feed. *)
Definition dot_char (c : ascii) : bool := negb (Ascii.eqb c lf).

(** What the white-space class matches. *)
Definition space_char (c : ascii) : bool :=
  existsb (Ascii.eqb c) [tab; lf; ff; cr; " "%char].

Lemma in_class_dot c : in_class true [(lf, lf)] c = dot_char c.
Proof. destruct c as [[] [] [] [] [] [] [] []]; reflexivity. Qed.

Lemma in_class_space c : in_class false space_ranges c = space_char c.
Proof. destruct c as [[] [] [] [] [] [] [] []]; reflexivity. Qed.

Lemma every_ext p q s : (forall c, p c = q c) -> every p s = every q s.
Proof. intros H. induction s as [|c s IH]; simpl; [reflexivity | now rewrite H, IH]. Qed.

Lemma every_append p a b : every p (a ++ b) = every p a && every p b.
Proof.
  induction a as [|c a IH]; simpl; [reflexivity | now rewrite IH, andb_assoc].
Qed.

Lemma Matches_star_class n rs s :
  every (in_class n rs) s = true -> Matches false (Star (Cls n rs)) s.
Proof.
  induction s as [|c s IH]; simpl; intros H; [constructor|].
  apply andb_true_iff in H. destruct H as [Hc Hs].
  change (String c s) with (String c "" ++ s)%string.
  apply MStarApp; [now constructor | now apply IH].
Qed.

Lemma Matches_plus_class n rs s :
  s <> "" -> every (in_class n rs) s = true -> Matches false (plus (Cls n rs)) s.
Proof.
  destruct s as [|c s]; [congruence|]. simpl. intros _ H.
  apply andb_true_iff in H. destruct H as [Hc Hs].
  change (String c s) with (String c "" ++ s)%string.
  apply MSeq; [now constructor | now apply Matches_star_class].
Qed.

Lemma Matches_lits w rest s :
  Matches false rest s -> Matches false (lits w rest) (w ++ s).
Proof.
  intros H. induction w as [|c w IH]; simpl; [exact H|].
  change (String c (w ++ s)) with (String c "" ++ (w ++ s))%string.
  apply MSeq; [constructor | exact IH].
Qed.

Lemma Seq_inv bot r1 r2 s :
  Matches bot (Seq r1 r2) s ->
  exists s1 s2, s = (s1 ++ s2)%string /\ Matches bot r1 s1
                /\ Matches (bot && is_empty s1) r2 s2.
Proof. intros H. inversion H; subst. eauto. Qed.

Lemma Lit_inv bot c s : Matches bot (Lit c) s -> s = String c "".
Proof. intros H. inversion H; subst. reflexivity. Qed.

Lemma Bol_inv bot s : Matches bot Bol s -> bot = true /\ s = "".
Proof. intros H. inversion H; subst. split; reflexivity. Qed.

Lemma Star_class_inv bot n rs s :
  Matches bot (Star (Cls n rs)) s -> every (in_class n rs) s = true.
Proof.
  intros H. remember (Star (Cls n rs)) as r eqn:Hr. revert Hr.
  induction H as [ | | | | | | | | b r0 s1 s2 H1 _ _ IH2 ]; intros Hr; try discriminate.
  - reflexivity.
  - injection Hr as ->. rewrite every_append, (IH2 eq_refl), andb_true_r.
    inversion H1; subst. simpl. now rewrite andb_true_r.
Qed.

Lemma plus_class_inv bot n rs s :
  Matches bot (plus (Cls n rs)) s -> s <> "" /\ every (in_class n rs) s = true.
Proof.
  intros H. apply Seq_inv in H. destruct H as [s1 [s2 [-> [H1 H2]]]].
  apply Star_class_inv in H2. inversion H1; subst. simpl. split; [discriminate|].
  apply andb_true_iff. now split.
Qed.

Lemma lits_inv w rest :
  forall bot s,
    Matches bot (lits w rest) s ->
    exists s2, s = (w ++ s2)%string /\ Matches (bot && is_empty w) rest s2.
Proof.
  induction w as [|c w IH]; intros bot s H; simpl in *.
  - exists s. rewrite andb_true_r. now split.
  - apply Seq_inv in H. destruct H as [s1 [s2 [-> [H1 H2]]]].
    apply Lit_inv in H1. subst s1. simpl in H2. rewrite andb_false_r in H2.
    apply IH in H2. destruct H2 as [s3 [-> H3]]. simpl in H3.
    exists s3. rewrite andb_false_r. now split.
Qed.

End Detectors.

(** *** The texts the two patterns find *)

Section Shapes.
Import regexp.

(** Somewhere after a line feed: white space, a star, the rest of that
    line, a line feed, white space, and a star again.  These are two
    lines that begin with an optionally indented star, the first of them
    not the first line of the text; the white space may span blank
    lines. *)
Definition steps_shape (text : string) : Prop :=
  exists before indent1 item1 indent2 rest,
    text = (before ++ LF ++ indent1 ++ "*" ++ item1 ++ LF ++ indent2 ++ "*" ++ rest)%string
    /\ every space_char indent1 = true
    /\ every dot_char item1 = true
    /\ every space_char indent2 = true.

(** The text begins with a line that has [Exception] between two
    non-empty parts; the next line is white space, [at], a non-empty
    call, white space, and it ends in a line feed. *)
Definition stack_shape (text : string) : Prop :=
  exists head tail indent call trailing rest,
    text = (head ++ "Exception" ++ tail ++ LF
            ++ indent ++ "at" ++ call ++ trailing ++ LF ++ rest)%string
    /\ head <> "" /\ every dot_char head = true
    /\ tail <> "" /\ every dot_char tail = true
    /\ every space_char indent = true
    /\ call <> "" /\ every dot_char call = true
    /\ every space_char trailing = true.

Lemma every_space s : every (in_class false space_ranges) s = every space_char s.
Proof. apply every_ext, in_class_space. Qed.

Lemma every_dot s : every (in_class true [(lf, lf)]) s = every dot_char s.
Proof. apply every_ext, in_class_dot. Qed.

Lemma Matches_bullet indent item :
  every space_char indent = true -> every dot_char item = true ->
  Matches false bullet (String lf (indent ++ String "*" item)).
Proof.
  intros Hi Hd. unfold bullet.
  change (String lf (indent ++ String "*" item))
    with (String lf "" ++ (indent ++ (String "*" "" ++ item)))%string.
  apply MSeq; [constructor|]. cbn [andb is_empty].
  apply MSeq; [apply Matches_star_class; now rewrite every_space|]. cbn [andb is_empty].
  apply MSeq; [constructor|]. cbn [andb is_empty].
  apply Matches_star_class. now rewrite every_dot.
Qed.

Lemma bullet_inv bot u :
  Matches bot bullet u ->
  exists indent item,
    u = String lf (indent ++ String "*" item)
    /\ every space_char indent = true /\ every dot_char item = true.
Proof.
  unfold bullet. intros H.
  apply Seq_inv in H. destruct H as [s1 [s2 [-> [H1 H]]]]. apply Lit_inv in H1. subst s1.
  apply Seq_inv in H. destruct H as [indent [s3 [-> [Hi H]]]].
  apply Star_class_inv in Hi. rewrite every_space in Hi.
  apply Seq_inv in H. destruct H as [s4 [item [-> [H4 Hd]]]]. apply Lit_inv in H4. subst s4.
  apply Star_class_inv in Hd. rewrite every_dot in Hd.
  exists indent, item. repeat split; assumption.
Qed.

Lemma steps_found_iff text :
  FindStringIndex_found steps_re text = true <-> steps_shape text.
Proof.
  unfold FindStringIndex_found. rewrite search_Matches. split.
  - intros [before [m [after [-> H]]]]. unfold steps_re in H.
    apply Seq_inv in H. destruct H as [u1 [m1 [-> [H1 H]]]].
    apply Seq_inv in H. destruct H as [u2 [more [-> [H2 _]]]].
    apply bullet_inv in H1. destruct H1 as [i1 [d1 [-> [Hi1 Hd1]]]].
    apply bullet_inv in H2. destruct H2 as [i2 [d2 [-> [Hi2 _]]]].
    exists before, i1, d1, i2, (d2 ++ more ++ after)%string.
    repeat split; try assumption.
    unfold LF. repeat (rewrite ?append_assoc; simpl). reflexivity.
  - intros [before [i1 [d1 [i2 [rest [-> [Hi1 [Hd1 Hi2]]]]]]]].
    exists before,
      (String lf (i1 ++ String "*" d1) ++ (String lf (i2 ++ String "*" "") ++ ""))%string,
      rest.
    split.
    + unfold LF. repeat (rewrite ?append_assoc; simpl). reflexivity.
    + apply Matches_anywhere. unfold steps_re.
      apply MSeq; [now apply Matches_bullet|]. cbn [andb is_empty].
      apply MSeq; [now apply Matches_bullet|]. cbn [andb is_empty]. constructor.
Qed.

Lemma Matches_frame indent call trailing :
  every space_char indent = true -> call <> "" -> every dot_char call = true ->
  every space_char trailing = true ->
  Matches false frame (indent ++ "at" ++ call ++ trailing ++ LF).
Proof.
  intros Hi Hne Hc Ht. unfold frame.
  apply MSeq; [apply Matches_star_class; now rewrite every_space|]. cbn [andb is_empty].
  apply (Matches_lits "at").
  apply MSeq; [apply Matches_plus_class; [exact Hne | now rewrite every_dot]|]. cbn [andb is_empty].
  apply MSeq; [apply Matches_star_class; now rewrite every_space|]. cbn [andb is_empty].
  constructor.
Qed.

Lemma frame_inv bot u :
  Matches bot frame u ->
  exists indent call trailing,
    u = (indent ++ "at" ++ call ++ trailing ++ LF)%string
    /\ every space_char indent = true
    /\ call <> "" /\ every dot_char call = true
    /\ every space_char trailing = true.
Proof.
  unfold frame. intros H.
  apply Seq_inv in H. destruct H as [indent [s1 [-> [Hi H]]]].
  apply Star_class_inv in Hi. rewrite every_space in Hi.
  apply lits_inv in H. destruct H as [s2 [-> H]].
  apply Seq_inv in H. destruct H as [call [s3 [-> [Hc H]]]].
  apply plus_class_inv in Hc. destruct Hc as [Hne Hc]. rewrite every_dot in Hc.
  apply Seq_inv in H. destruct H as [trailing [s4 [-> [Ht H]]]].
  apply Star_class_inv in Ht. rewrite every_space in Ht.
  apply Lit_inv in H. subst s4.
  exists indent, call, trailing. repeat split; assumption.
Qed.

Lemma is_empty_true s : is_empty s = true -> s = "".
Proof. destruct s; [reflexivity | discriminate]. Qed.

Lemma stack_found_iff text :
  FindStringIndex_found stack_re text = true <-> stack_shape text.
Proof.
  unfold FindStringIndex_found. rewrite search_Matches. split.
  - intros [before [m [after [-> H]]]]. unfold stack_re in H.
    apply Seq_inv in H. destruct H as [s0 [m0 [-> [H0 H]]]].
    apply Bol_inv in H0. destruct H0 as [Hb ->].
    simpl in Hb. apply is_empty_true in Hb. subst before.
    apply Seq_inv in H. destruct H as [head [m1 [-> [Hh H]]]].
    apply plus_class_inv in Hh. destruct Hh as [Hhne Hh]. rewrite every_dot in Hh.
    apply lits_inv in H. destruct H as [m2 [-> H]].
    apply Seq_inv in H. destruct H as [tail [m3 [-> [Ht H]]]].
    apply plus_class_inv in Ht. destruct Ht as [Htne Ht]. rewrite every_dot in Ht.
    apply Seq_inv in H. destruct H as [s4 [m4 [-> [H4 H]]]]. apply Lit_inv in H4. subst s4.
    apply Seq_inv in H. destruct H as [f1 [more [-> [Hf _]]]].
    apply frame_inv in Hf.
    destruct Hf as [indent [call [trailing [-> [Hi [Hcne [Hc Htr]]]]]]].
    exists head, tail, indent, call, trailing, (more ++ after)%string.
    repeat split; try assumption.
    unfold LF. repeat (rewrite ?append_assoc; simpl). reflexivity.
  - intros [head [tail [indent [call [trailing [rest
             [-> [Hhne [Hh [Htne [Ht [Hi [Hcne [Hc Htr]]]]]]]]]]]]]].
    exists "",
      ("" ++ (head ++ ("Exception" ++ (tail ++ (String lf ""
         ++ ((indent ++ "at" ++ call ++ trailing ++ LF) ++ ""))))))%string,
      rest.
    split.
    + unfold LF. repeat (rewrite ?append_assoc; simpl). reflexivity.
    + unfold stack_re.
      apply MSeq; [constructor|]. cbn [andb is_empty].
      apply Matches_anywhere.
      apply MSeq; [apply Matches_plus_class; [exact Hhne | now rewrite every_dot]|]. cbn [andb is_empty].
      apply (Matches_lits "Exception").
      apply MSeq; [apply Matches_plus_class; [exact Htne | now rewrite every_dot]|]. cbn [andb is_empty].
      apply MSeq; [constructor|]. cbn [andb is_empty].
      apply MSeq; [now apply Matches_frame|]. cbn [andb is_empty]. constructor.
Qed.

End Shapes.

(** *** Bullet lines *)

Section BulletLines.

(** A line whose first character after its white space is a star. *)
Fixpoint is_bullet_line (line : string) : bool :=
  match line with
  | EmptyString => false
  | String c rest => Ascii.eqb c "*" || (space_char c && is_bullet_line rest)
  end.

(** The bullet lines of a text, in order. *)
Definition bullet_lines (text : string) : list string :=
  filter is_bullet_line (strings.Split text strings.newline).

Lemma bullet_after_indent indent rest :
  every space_char indent = true ->
  (1 <= List.length (bullet_lines (indent ++ String "*" rest)))%nat.
Proof.
  unfold bullet_lines. induction indent as [|c indent IH]; intros H.
  - cbn [append strings.Split].
    change (Ascii.eqb "*" strings.newline) with false. cbv iota.
    destruct (Split_cons rest strings.newline) as [l [ls ->]]. simpl. lia.
  - simpl in H. apply andb_true_iff in H. destruct H as [Hc Hs].
    specialize (IH Hs). cbn [append strings.Split].
    destruct (Ascii.eqb c strings.newline).
    + simpl. exact IH.
    + destruct (Split_cons (indent ++ String "*" rest) strings.newline) as [l [ls E]].
      rewrite E in *. simpl in *. rewrite Hc. simpl.
      destruct (is_bullet_line l); rewrite ?orb_true_r, ?orb_false_r.
      * simpl. lia.
      * destruct (Ascii.eqb c "*"); simpl; lia.
Qed.

Lemma steps_shape_two_bullets text :
  steps_shape text -> (2 <= List.length (bullet_lines text))%nat.
Proof.
  intros [before [i1 [d1 [i2 [rest [-> [Hi1 [_ Hi2]]]]]]]].
  replace (before ++ LF ++ i1 ++ "*" ++ d1 ++ LF ++ i2 ++ "*" ++ rest)%string
    with (before ++ String strings.newline
            ((i1 ++ String "*" d1) ++ String strings.newline (i2 ++ String "*" rest)))%string
    by (unfold LF; repeat (rewrite ?append_assoc; simpl); reflexivity).
  unfold bullet_lines. rewrite !Split_append, !filter_app, !length_app.
  assert (H1 := bullet_after_indent i1 d1 Hi1).
  assert (H2 := bullet_after_indent i2 rest Hi2).
  unfold bullet_lines in H1, H2. lia.
Qed.

Lemma verdict_true (b : bool) (e : option regexp.Error) : (b, e) = (true, e) <-> b = true.
Proof. split; [congruence | now intros ->]. Qed.

End BulletLines.

(** Reports to try the detectors on. *)
Module Reports.
Import jira.

Definition report (description : string) (comments : list string) : Issue :=
  {| Key := "TG-2";
     IssueFields :=
       {| Summary := "Crash on save";
          Description := description;
          Created := 0;
          Attachments := [];
          FieldComments :=
            {| CommentList := map (fun b => {| Body := b; CommentCreated := 0 |}) comments |};
          FieldPriority := {| PriorityID := "1"; PriorityName := "Critical" |} |};
     IssueChangelog := {| Histories := [] |};
     IssueSentiment := {| HasScore := false; Score := 0%float |} |}.

(** An exception line followed by a single stack frame. *)
Definition one_frame : string :=
  "java.lang.IllegalStateException: boom" ++ LF
  ++ "  at editor.Buffer.save(Buffer.java:42)" ++ LF.

(** An exception line followed by two stack frames. *)
Definition two_frames : string :=
  "java.lang.IllegalStateException: boom" ++ LF
  ++ "  at editor.Buffer.save(Buffer.java:42)" ++ LF
  ++ "  at editor.Main.main(Main.java:7)" ++ LF.

(** The same trace after a line of introduction. *)
Definition introduced_trace : string := "The log says:" ++ LF ++ two_frames.

(** Two bullet lines, the first of them the first line of the text. *)
Definition bare_bullets : string := "* open the editor" ++ LF ++ "* press save".

(** Two bullet lines under a heading. *)
Definition headed_bullets : string :=
  "Steps:" ++ LF ++ "* open the editor" ++ LF ++ "  * press save".

(** One bullet line under a heading. *)
Definition one_bullet : string := "Steps:" ++ LF ++ "* open the editor".

End Reports.

(** C6, on the code.  A trace with a single [at] line is detected, and a
    trace with two [at] lines that does not begin the text is not. *)
Lemma HasStackTrace_one_frame_and_not_first :
  analyze.HasStackTrace (Reports.report Reports.one_frame []) = (true, None)
  /\ analyze.HasStackTrace (Reports.report Reports.introduced_trace []) = (false, None)
  /\ analyze.HasStackTrace (Reports.report "see below" [Reports.introduced_trace])
     = (false, None).
Proof.
  repeat split; vm_compute; reflexivity.
Qed.

(** [HasStackTrace] answers true exactly for the issues one of whose texts
    has the shape the pattern finds. *)
Lemma HasStackTrace_iff_shape (issue : jira.Issue) :
  analyze.HasStackTrace issue = (true, None)
  <-> exists text, In text (texts issue) /\ stack_shape text.
Proof.
  rewrite HasStackTrace_texts, verdict_true, existsb_exists.
  split; intros [text [Hin H]]; exists text; (split; [exact Hin | now apply stack_found_iff]).
Qed.

(** C6, amended.  When the description or some comment body begins with a
    line that has [Exception] between two non-empty parts, and the next
    line is optional white space, [at], at least one more character and a
    line feed at its end, [HasStackTrace] returns true with a nil error.
    One such [at] line is enough: whatever follows it, a second [at] line
    or none, the answer is true. *)
Theorem HasStackTrace_first_line_one_frame (issue : jira.Issue) (text : string) :
  In text (texts issue) ->
  stack_shape text ->
  analyze.HasStackTrace issue = (true, None).
Proof.
  intros Hin Hshape. apply HasStackTrace_iff_shape. exists text. now split.
Qed.

(** A comment that is a trace with one frame makes the detector answer
    true. *)
Lemma HasStackTrace_comment_with_one_frame :
  analyze.HasStackTrace (Reports.report "It crashed." ["same here"; Reports.one_frame])
  = (true, None).
Proof.
  apply (HasStackTrace_first_line_one_frame _ Reports.one_frame); [simpl; tauto|].
  exists "java.lang.IllegalState", ": boom", "  ", " editor.Buffer.save(Buffer.java:42)", "", "".
  repeat split; discriminate.
Defined.

(** C7, on the code.  Two consecutive bullet lines at the very beginning of
    the text are not detected: the pattern wants a line feed before each
    bullet. *)
Lemma HasStepsToReproduce_misses_leading_bullets :
  analyze.HasStepsToReproduce (Reports.report Reports.bare_bullets []) = (false, None)
  /\ bullet_lines Reports.bare_bullets = ["* open the editor"; "* press save"].
Proof.
  split; vm_compute; reflexivity.
Qed.

(** [HasStepsToReproduce] answers true exactly for the issues one of whose
    texts has the shape the pattern finds. *)
Lemma HasStepsToReproduce_iff_shape (issue : jira.Issue) :
  analyze.HasStepsToReproduce issue = (true, None)
  <-> exists text, In text (texts issue) /\ steps_shape text.
Proof.
  rewrite HasStepsToReproduce_texts, verdict_true, existsb_exists.
  split; intros [text [Hin H]]; exists text; (split; [exact Hin | now apply steps_found_iff]).
Qed.

(** C7, amended.  When the description or some comment body contains,
    after a line feed, two successive lines that each begin with an
    optionally indented star, [HasStepsToReproduce] returns true with a nil
    error.  When no text of the issue has more than one bullet line, it
    returns false. *)
Theorem HasStepsToReproduce_bullets_after_line_feed (issue : jira.Issue) :
  ((exists text, In text (texts issue) /\ steps_shape text) ->
   analyze.HasStepsToReproduce issue = (true, None))
  /\ ((forall text, In text (texts issue) -> (List.length (bullet_lines text) <= 1)%nat) ->
      analyze.HasStepsToReproduce issue = (false, None)).
Proof.
  split.
  - apply HasStepsToReproduce_iff_shape.
  - intros Hone. rewrite HasStepsToReproduce_texts. f_equal.
    destruct (existsb (regexp.FindStringIndex_found steps_re) (texts issue)) eqn:E;
      [|reflexivity].
    apply existsb_exists in E. destruct E as [text [Hin H]].
    apply steps_found_iff, steps_shape_two_bullets in H.
    specialize (Hone text Hin). lia.
Qed.

(** Two bullet lines under a heading are detected; a single one is not. *)
Lemma HasStepsToReproduce_headed_bullets :
  analyze.HasStepsToReproduce (Reports.report "It crashed." [Reports.headed_bullets])
  = (true, None)
  /\ analyze.HasStepsToReproduce (Reports.report Reports.one_bullet ["* me too"])
     = (false, None).
Proof.
  split.
  - apply (proj1 (HasStepsToReproduce_bullets_after_line_feed _)).
    exists Reports.headed_bullets. split; [simpl; tauto|].
    exists "Steps:", "", " open the editor", "  ", " press save".
    repeat split.
  - apply (proj2 (HasStepsToReproduce_bullets_after_line_feed _)).
    intros text [<- | [<- | []]]; vm_compute; lia.
Defined.

(** C10.  The two patterns are fixed literals that compile, so both
    detectors hand back a verdict with a nil error for every issue. *)
Theorem detectors_return_nil_error (issue : jira.Issue) :
  (exists verdict, analyze.HasStepsToReproduce issue = (verdict, None))
  /\ (exists verdict, analyze.HasStackTrace issue = (verdict, None))
  /\ regexp.Compile analyze.steps_expr = regexp.Ok steps_re
  /\ regexp.Compile analyze.stack_expr = regexp.Ok stack_re.
Proof.
  split; [|split; [|split]].
  - eexists. apply HasStepsToReproduce_texts.
  - eexists. apply HasStackTrace_texts.
  - apply Compile_steps_expr.
  - apply Compile_stack_expr.
Qed.

(** ** Mean resolution time per category *)

Section Means.
Import plot.

(** The tickets that a bar chart counts in the category of a flag: those
    the loop does not skip and that carry the flag. *)
Definition counted_with (has : Ticket -> bool) (tickets : list Ticket) : list Ticket :=
  filter (fun t => negb (skipped t) && has t) tickets.

(** Those the loop does not skip and that do not carry the flag. *)
Definition counted_without (has : Ticket -> bool) (tickets : list Ticket) : list Ticket :=
  filter (fun t => negb (skipped t) && negb (has t)) tickets.

(** Those the loop skips. *)
Definition left_out (tickets : list Ticket) : list Ticket := filter skipped tickets.

(** The sum of the resolution times of tickets, added one by one from zero
    in their order, in float64. *)
Definition total_time (tickets : list Ticket) : float :=
  fold_left (fun sum t => PrimFloat.add sum (TimeToClose t)) tickets 0%float.

(** A loop that counts and sums the tickets with a flag, and sums those
    without, computes the counter and the sums of the two selections. *)
Lemma tally_fold (body : Z * float * float -> Ticket -> Z * float * float)
      (has : Ticket -> bool) :
  (forall c s w t,
      body (c, s, w) t
      = if skipped t then (c, s, w)
        else if has t then (c + 1, PrimFloat.add s (TimeToClose t), w)
             else (c, s, PrimFloat.add w (TimeToClose t))) ->
  forall tickets c s w,
    fold_left body tickets (c, s, w)
    = (c + Z.of_nat (List.length (counted_with has tickets)),
       fold_left (fun sum t => PrimFloat.add sum (TimeToClose t)) (counted_with has tickets) s,
       fold_left (fun sum t => PrimFloat.add sum (TimeToClose t))
                 (counted_without has tickets) w).
Proof.
  intros Hbody. induction tickets as [|t rest IH]; intros c s w.
  - simpl. now rewrite Z.add_0_r.
  - cbn [fold_left]. rewrite Hbody. unfold counted_with, counted_without in *.
    cbn [filter].
    destruct (skipped t); cbn [negb andb]; [apply IH|].
    destruct (has t); cbn [negb]; rewrite IH; cbn [fold_left List.length];
      [|reflexivity].
    f_equal. f_equal. lia.
Qed.

(** The values [StepsToReproduce] hands to [barchart], in terms of the
    tickets. *)
Lemma StepsToReproduce_bars_values tickets :
  StepsToReproduce_bars tickets
  = Some [ ("With Steps to Reproduce",
            PrimFloat.div (total_time (counted_with HasStepsToReproduce tickets))
              (GoFloat.of_int
                 (Z.of_nat (List.length (counted_with HasStepsToReproduce tickets)))));
           ("Without Steps to Reproduce",
            PrimFloat.div (total_time (counted_without HasStepsToReproduce tickets))
              (GoFloat.of_int
                 (Z.of_nat (List.length tickets)
                  - Z.of_nat (List.length (counted_with HasStepsToReproduce tickets))))) ].
Proof.
  unfold StepsToReproduce_bars.
  rewrite (tally_fold steps_body HasStepsToReproduce); [reflexivity|].
  intros c s w t. reflexivity.
Qed.



(** Every ticket is skipped, counted with the flag or counted without. *)
Lemma tickets_partition (has : Ticket -> bool) tickets :
  Z.of_nat (List.length tickets)
  = Z.of_nat (List.length (counted_with has tickets))
    + Z.of_nat (List.length (counted_without has tickets))
    + Z.of_nat (List.length (left_out tickets)).
Proof.
  unfold counted_with, counted_without, left_out.
  induction tickets as [|t rest IH]; [reflexivity|]. cbn [filter List.length].
  destruct (skipped t), (has t); cbn [negb andb List.length]; lia.
Qed.


Definition maps_made (st : attachments_state) : Prop :=
  typeCountM st <> None /\ typeTimeM st <> None.

Lemma attachments_inner_returns ticket atts st :
  maps_made st ->
  exists st',
    for_range
      (fun st a =>
         cm <- assign AttachmentType_eqb (typeCountM st) (Type_ a)
                 (index AttachmentType_eqb 0 (typeCountM st) (Type_ a) + 1) ;;
         tm <- assign AttachmentType_eqb (typeTimeM st) (Type_ a)
                 (PrimFloat.add (index AttachmentType_eqb 0%float (typeTimeM st) (Type_ a))
                                (TimeToClose ticket)) ;;
         Returns {| withoutCount := withoutCount st;
                    withoutTime := withoutTime st;
                    typeCountM := cm;
                    typeTimeM := tm |})
      atts st = Returns st'
    /\ maps_made st'.
Proof.
  revert st. induction atts as [|a rest IH]; intros st Hm.
  - exists st. now split.
  - destruct st as [wc wt [cm|] [tm|]]; unfold maps_made in Hm; simpl in Hm;
      try (exfalso; tauto).
    cbn [for_range bind assign typeCountM typeTimeM].
    apply IH. split; discriminate.
Qed.

Lemma attachments_loop_returns tickets st :
  maps_made st ->
  exists st', for_range attachments_body tickets st = Returns st' /\ maps_made st'.
Proof.
  revert st. induction tickets as [|t rest IH]; intros st Hm.
  - exists st. now split.
  - cbn [for_range]. unfold attachments_body at 1.
    destruct (skipped t); [now apply IH|].
    destruct (Z.of_nat (List.length (Attachments_ t)) =? 0).
    + cbn [bind]. apply IH. exact Hm.
    + destruct (attachments_inner_returns t (Attachments_ t) st Hm) as [st1 [E Hm1]].
      rewrite E. cbn [bind]. now apply IH.
Qed.

(** [Attachments] never reaches [barchart]: its first write to [result]
    is a write to the nil map. *)
Lemma Attachments_panics tickets :
  Attachments tickets = Panics "assignment to entry in nil map".
Proof.
  unfold Attachments.
  destruct (attachments_loop_returns tickets
              {| withoutCount := 0; withoutTime := 0%float;
                 typeCountM := make; typeTimeM := make |}) as [st [E _]].
  - split; discriminate.
  - rewrite E. reflexivity.
Qed.

End Means.

(** Tickets to try the plots on. *)
Module Population.
Import plot.

Definition closed_in (hours : float) (steps : bool) (attachments : list Attachment) : Ticket :=
  {| Key := "TG-3"; Attachments_ := attachments; TimeToClose := hours;
     HasStepsToReproduce := steps; HasStackTrace := false |}.






End Population.





(** * Further properties of the code *)

(** ** The aggregators, ticket by ticket *)

Section PerTicket.
Import jira analyze.

(** A loop that only ever appends to its two slices. *)
Lemma fold_appending {X : Type} (step : list float * list float -> X -> list float * list float)
      (f g : X -> list float) :
  (forall acc x, step acc x = (fst acc ++ f x, snd acc ++ g x)) ->
  forall l a b, fold_left step l (a, b) = (a ++ flat_map f l, b ++ flat_map g l).
Proof.
  intros Hstep. induction l as [|x l IH]; intros a b; simpl.
  - now rewrite !app_nil_r.
  - rewrite Hstep, IH. simpl. now rewrite <- !app_assoc.
Qed.

(** What one ticket adds to the two series of [WordinessAnalysis]. *)
Definition wordiness_counts (field : string) (issue : Issue) : list float :=
  if eligible issue then wordiness_switch field issue [] else [].

Definition resolution_times (issue : Issue) : list float :=
  if eligible issue then [timeToResolve issue] else [].

Lemma wordiness_switch_appends field issue l :
  wordiness_switch field issue l = l ++ wordiness_switch field issue [].
Proof.
  unfold wordiness_switch.
  destruct (String.eqb field "description"); [reflexivity|].
  destruct (String.eqb field "summary"); [reflexivity|].
  destruct (String.eqb field "comment"); [reflexivity|].
  now rewrite app_nil_r.
Qed.

Lemma wordiness_step_appends field acc issue :
  wordiness_step field acc issue
  = (fst acc ++ wordiness_counts field issue, snd acc ++ resolution_times issue).
Proof.
  destruct acc as [ws ts]. unfold wordiness_step, wordiness_counts, resolution_times, eligible.
  simpl. destruct (passes (timeToResolve issue) issue).
  - now rewrite wordiness_switch_appends.
  - now rewrite !app_nil_r.
Qed.

(** Whether the ticket has an attachment: [len(issue.Fields.Attachments) > 0]. *)
Definition has_attachments (issue : Issue) : bool :=
  match Attachments (IssueFields issue) with
  | [] => false
  | _ :: _ => true
  end.

Lemma has_attachments_len issue :
  (0 <? Z.of_nat (List.length (Attachments (IssueFields issue)))) = has_attachments issue.
Proof.
  unfold has_attachments. destruct (Attachments (IssueFields issue)); [reflexivity|].
  apply Z.ltb_lt. simpl List.length. lia.
Qed.

Definition times_with (issue : Issue) : list float :=
  if eligible issue && has_attachments issue then [timeToResolve issue] else [].

Definition times_without (issue : Issue) : list float :=
  if eligible issue && negb (has_attachments issue) then [timeToResolve issue] else [].

Lemma attachments_step_appends acc issue :
  attachments_step acc issue = (fst acc ++ times_with issue, snd acc ++ times_without issue).
Proof.
  destruct acc as [ws ts]. unfold attachments_step, times_with, times_without, eligible.
  simpl. rewrite has_attachments_len.
  destruct (passes (timeToResolve issue) issue), (has_attachments issue);
    simpl; now rewrite ?app_nil_r.
Qed.

Definition sentiment_scores (issue : Issue) : list float :=
  if scored issue then [Score (IssueSentiment issue)] else [].

Definition scored_times (issue : Issue) : list float :=
  if scored issue then [timeToResolve issue] else [].

Lemma sentiment_step_appends acc issue :
  sentiment_step acc issue = (fst acc ++ sentiment_scores issue, snd acc ++ scored_times issue).
Proof.
  destruct acc as [ss ts]. unfold sentiment_step, sentiment_scores, scored_times, scored, eligible.
  simpl. destruct (passes (timeToResolve issue) issue && HasScore (IssueSentiment issue));
    now rewrite ?app_nil_r.
Qed.

Lemma WordinessAnalysis_per_ticket issues field :
  WordinessAnalysis issues field
  = (flat_map (wordiness_counts field) issues, flat_map resolution_times issues).
Proof.
  unfold WordinessAnalysis.
  now rewrite (fold_appending _ _ _ (wordiness_step_appends field)).
Qed.

Lemma AttachmentsAnalysis_per_ticket issues :
  AttachmentsAnalysis issues = (flat_map times_with issues, flat_map times_without issues).
Proof.
  unfold AttachmentsAnalysis. now rewrite (fold_appending _ _ _ attachments_step_appends).
Qed.

Lemma SentimentScoreAnalysis_per_ticket issues :
  SentimentScoreAnalysis issues
  = (flat_map sentiment_scores issues, flat_map scored_times issues).
Proof.
  unfold SentimentScoreAnalysis. now rewrite (fold_appending _ _ _ sentiment_step_appends).
Qed.

(** A [flat_map] that keeps at most one value per element is a [map] over
    a [filter]. *)
Lemma flat_map_filter {X Y : Type} (keep : X -> bool) (value : X -> Y) (l : list X) :
  flat_map (fun x => if keep x then [value x] else []) l = map value (filter keep l).
Proof.
  induction l as [|x l IH]; simpl; [reflexivity|].
  destruct (keep x); simpl; now rewrite IH.
Qed.

(** The guard [timeDiff > -1] on a reported time. *)
Definition above_sentinel (t : float) : Prop := PrimFloat.ltb (-1)%float t = true.

Lemma eligible_above_sentinel issue : eligible issue = true -> above_sentinel (timeToResolve issue).
Proof.
  unfold eligible, passes, above_sentinel. intros H.
  apply andb_true_iff in H. tauto.
Qed.

Lemma kept_times_above_sentinel (keep : Issue -> bool) issues :
  (forall i, keep i = true -> eligible i = true) ->
  Forall above_sentinel (map timeToResolve (filter keep issues)).
Proof.
  intros Hkeep. apply Forall_forall. intros t Ht.
  apply in_map_iff in Ht. destruct Ht as [i [<- Hi]].
  apply filter_In in Hi. apply eligible_above_sentinel, Hkeep, Hi.
Qed.

End PerTicket.

(** X1.  [AttachmentsAnalysis] sorts the resolution times of the eligible
    tickets into two series, in the order of the list: the first has the
    tickets with at least one attachment, the second the tickets with
    none, so together they have one entry for each eligible ticket. *)
Theorem AttachmentsAnalysis_partition (issues : list jira.Issue) :
  analyze.AttachmentsAnalysis issues
  = (map analyze.timeToResolve (filter (fun i => eligible i && has_attachments i) issues),
     map analyze.timeToResolve
         (filter (fun i => eligible i && negb (has_attachments i)) issues))
  /\ (List.length (fst (analyze.AttachmentsAnalysis issues))
      + List.length (snd (analyze.AttachmentsAnalysis issues))
      = List.length (filter eligible issues))%nat.
Proof.
  rewrite AttachmentsAnalysis_per_ticket. unfold times_with, times_without.
  rewrite !flat_map_filter. split; [reflexivity|].
  simpl. rewrite !length_map.
  induction issues as [|i rest IH]; simpl; [reflexivity|].
  destruct (eligible i), (has_attachments i); simpl; lia.
Qed.

(** X2.  No analysis ever reports the unresolved value: every resolution
    time in a series returned by [WordinessAnalysis], [AttachmentsAnalysis]
    or [SentimentScoreAnalysis] is greater than [-1]. *)
Theorem reported_times_above_sentinel (issues : list jira.Issue) (field : string) :
  Forall above_sentinel (snd (analyze.WordinessAnalysis issues field))
  /\ Forall above_sentinel (fst (analyze.AttachmentsAnalysis issues))
  /\ Forall above_sentinel (snd (analyze.AttachmentsAnalysis issues))
  /\ Forall above_sentinel (snd (analyze.SentimentScoreAnalysis issues)).
Proof.
  rewrite WordinessAnalysis_per_ticket, AttachmentsAnalysis_per_ticket,
    SentimentScoreAnalysis_per_ticket.
  unfold resolution_times, times_with, times_without, scored_times. simpl.
  rewrite !flat_map_filter.
  repeat split; apply kept_times_above_sentinel; intros i H;
    try exact H; apply andb_true_iff in H; tauto.
Qed.

(** X3.  With a field selector other than [description], [summary] and
    [comment], [WordinessAnalysis] returns no word count at all, whatever
    the list, beside the resolution times of all the eligible tickets. *)
Theorem WordinessAnalysis_unknown_field (issues : list jira.Issue) (field : string) :
  ~ supported field ->
  analyze.WordinessAnalysis issues field
  = ([], map analyze.timeToResolve (filter eligible issues)).
Proof.
  intros Hf. unfold analyze.WordinessAnalysis.
  now rewrite (wordiness_fold_unsupported field issues [] [] Hf).
Qed.

(** The selector [title] on the three scenario tickets. *)
Lemma WordinessAnalysis_unknown_field_example :
  analyze.WordinessAnalysis [Scenario.ticketA; Scenario.ticketB; Scenario.ticketMinor] "title"
  = ([], [5%float]).
Proof.
  rewrite (WordinessAnalysis_unknown_field _ "title").
  - vm_compute. reflexivity.
  - intros [H | [H | H]]; discriminate H.
Defined.

(** X4.  Each analysis works ticket by ticket: on two lists put end to end
    it returns the series of the first followed by the series of the
    second. *)
Theorem analyses_distribute_over_append (l1 l2 : list jira.Issue) (field : string) :
  analyze.WordinessAnalysis (l1 ++ l2) field
  = (fst (analyze.WordinessAnalysis l1 field) ++ fst (analyze.WordinessAnalysis l2 field),
     snd (analyze.WordinessAnalysis l1 field) ++ snd (analyze.WordinessAnalysis l2 field))
  /\ analyze.AttachmentsAnalysis (l1 ++ l2)
     = (fst (analyze.AttachmentsAnalysis l1) ++ fst (analyze.AttachmentsAnalysis l2),
        snd (analyze.AttachmentsAnalysis l1) ++ snd (analyze.AttachmentsAnalysis l2))
  /\ analyze.SentimentScoreAnalysis (l1 ++ l2)
     = (fst (analyze.SentimentScoreAnalysis l1) ++ fst (analyze.SentimentScoreAnalysis l2),
        snd (analyze.SentimentScoreAnalysis l1) ++ snd (analyze.SentimentScoreAnalysis l2)).
Proof.
  rewrite !WordinessAnalysis_per_ticket, !AttachmentsAnalysis_per_ticket,
    !SentimentScoreAnalysis_per_ticket.
  simpl. rewrite !flat_map_app. repeat split.
Qed.

(** ** Word count, line by line *)

Section WordCountFacts.

Lemma total_lower_bound (l : list Z) :
  (forall x, In x l -> 1 <= x) -> Z.of_nat (List.length l) <= total l.
Proof.
  induction l as [|x l IH]; intros H; [simpl; lia|].
  assert (1 <= x) by (apply H; now left).
  assert (Z.of_nat (List.length l) <= total l) by (apply IH; intros y Hy; apply H; now right).
  cbn [total fold_right] in *. change (fold_right Z.add 0 l) with (total l).
  cbn [List.length]. lia.
Qed.

End WordCountFacts.

(** X5.  The word count is additive over lines: the count of two texts
    joined by a line feed is the sum of their counts, with no condition on
    the texts. *)
Theorem calculateNumberOfWords_additive (a b : string) :
  analyze.calculateNumberOfWords (a ++ LF ++ b)
  = analyze.calculateNumberOfWords a + analyze.calculateNumberOfWords b
  /\ jira.CalculateNumberOfWords (a ++ LF ++ b)
     = jira.CalculateNumberOfWords a + jira.CalculateNumberOfWords b.
Proof.
  assert (H : analyze.calculateNumberOfWords (a ++ LF ++ b)
              = analyze.calculateNumberOfWords a + analyze.calculateNumberOfWords b).
  { rewrite !calculateNumberOfWords_lines.
    change (a ++ LF ++ b)%string with (a ++ String strings.newline b)%string.
    now rewrite Split_append, map_app, total_app. }
  split; exact H.
Qed.

(** X6.  The word count is never zero: every text counts at least as many
    words as it has lines, that is at least one more than it has line
    feeds. *)
Theorem calculateNumberOfWords_at_least_lines (s : string) :
  1 + Z.of_nat (count strings.newline s) <= analyze.calculateNumberOfWords s.
Proof.
  rewrite calculateNumberOfWords_lines.
  assert (H := total_lower_bound (map line_words (strings.Split s strings.newline))).
  rewrite length_map, Split_length in H.
  rewrite Nat2Z.inj_succ in H. unfold Z.succ in H.
  rewrite Z.add_comm. apply H.
  intros x Hx. apply in_map_iff in Hx. destruct Hx as [line [<- _]].
  rewrite line_words_spaces. lia.
Qed.

(** ** The classifier of package [jira] *)

Section JiraClassifier.

(** A text with a dot splits at its last dot. *)
Lemma split_at_last_dot (s : string) :
  count "." s <> O ->
  exists base ext, s = (base ++ "." ++ ext)%string /\ count "." ext = O.
Proof.
  induction s as [|c s IH]; simpl; [congruence|].
  intros H. destruct (Nat.eq_dec (count "." s) 0) as [Hz | Hnz].
  - rewrite Hz in H. destruct (Ascii.eqb_spec c ".") as [-> | Hc]; [|congruence].
    exists "", s. split; [reflexivity | exact Hz].
  - destruct (IH Hnz) as [base [ext [-> Hext]]].
    exists (String c base), ext. split; [reflexivity | exact Hext].
Qed.

End JiraClassifier.

(** X7.  [jira.GetAttachmentType] tells no category apart: on a filename
    without a dot it panics, and on every other filename it returns Code,
    because the extension it compares still has its dot in front.  It
    never returns Text, Image or Video. *)
Theorem GetAttachmentType_only_Code (filename : string) :
  (count "." filename = O ->
   jira.GetAttachmentType filename = Panics "slice bounds out of range")
  /\ (count "." filename <> O -> jira.GetAttachmentType filename = Returns jira.Code)
  /\ jira.GetAttachmentType filename <> Returns jira.Text
  /\ jira.GetAttachmentType filename <> Returns jira.Image
  /\ jira.GetAttachmentType filename <> Returns jira.Video.
Proof.
  assert (Hdot : count "." filename <> O ->
                 jira.GetAttachmentType filename = Returns jira.Code).
  { intros H. destruct (split_at_last_dot filename H) as [base [ext [-> Hext]]].
    now apply GetAttachmentType_with_dot. }
  split; [apply GetAttachmentType_no_dot|]. split; [exact Hdot|].
  destruct (Nat.eq_dec (count "." filename) 0) as [Hz | Hnz].
  - rewrite (GetAttachmentType_no_dot filename Hz). repeat split; discriminate.
  - rewrite (Hdot Hnz). repeat split; discriminate.
Qed.

(** A picture and a name without extension. *)
Lemma GetAttachmentType_only_Code_examples :
  jira.GetAttachmentType "screenshot.png" = Returns jira.Code
  /\ jira.GetAttachmentType "Makefile" = Panics "slice bounds out of range".
Proof.
  split.
  - apply (GetAttachmentType_only_Code "screenshot.png"). discriminate.
  - apply (GetAttachmentType_only_Code "Makefile"). reflexivity.
Defined.

(** ** The bar charts *)

(** X8.  [plot.Attachments] never reaches [barchart]: for every population
    its first write into [result], a map that is declared and never made,
    panics. *)
Theorem Attachments_never_draws (tickets : list plot.Ticket) :
  plot.Attachments tickets = Panics "assignment to entry in nil map"
  /\ forall bars, plot.Attachments tickets <> Returns bars.
Proof.
  rewrite (Attachments_panics tickets). split; [reflexivity | discriminate].
Qed.

(** ** Package [plot], continued *)

Module plot_cont.
Import plot.

(** The loop of [Stacktraces]: [(withCount, withSum, withoutSum)]. *)
Definition stacktraces_body (st : Z * float * float) (ticket : Ticket) : Z * float * float :=
  let '(withCount, withSum, withoutSum) := st in
  if skipped ticket then (withCount, withSum, withoutSum)
  else if HasStackTrace ticket
       then (withCount + 1, PrimFloat.add withSum (TimeToClose ticket), withoutSum)
       else (withCount, withSum, PrimFloat.add withoutSum (TimeToClose ticket)).

(** The map literal that [Stacktraces] builds after its loop. *)
Definition Stacktraces_bars (tickets : list Ticket) : gomap string float :=
  let '(withCount, withSum, withoutSum) :=
    fold_left stacktraces_body tickets (0, 0%float, 0%float) in
  Some [ ("With Stack Traces",
          PrimFloat.div withSum (GoFloat.of_int withCount));
         ("Without Stack Traces",
          PrimFloat.div withoutSum
            (GoFloat.of_int (Z.of_nat (List.length tickets) - withCount))) ].

(** [Stacktraces]: the loop, then [os.Getwd], whose error is returned,
    then [barchart]. *)
Definition Stacktraces (w : World) (tickets : list Ticket) : option error :=
  let vals := Stacktraces_bars tickets in
  match Getwd w with
  | (_, Some err) => Some err
  | (wd, None) =>
      barchart w "Stack Traces Analysis"
        (Sprintf3 wd graphsPath "stack_traces.png") vals
  end.

(** Modelled from the spec: a score with its presence flag, as the
    scatter plots read it from [jira.Ticket] ([ticket.Sentiment.HasScore],
    [ticket.GrammarCorrectness.Score]). *)
Record Score : Type := {
  HasScore : bool;
  Value : float
}.

(** Modelled from the spec: the fields of [jira.Ticket] that the scatter
    plots read beside those of [plot.Ticket] above; the declaration of
    [Ticket] is not among the sources. *)
Record Measures : Type := {
  Base : Ticket;
  CommentWordsCount : Z;
  SummaryDescWordsCount : Z;
  GrammarCorrectness_ : Score;
  Sentiment : Score
}.

(** The body of the loop of [CommentsComplexity], on [comms] and [times]. *)
Definition comments_step (acc : list float * list float) (ticket : Measures)
  : list float * list float :=
  let '(comms, times) := acc in
  if PrimFloat.ltb 0%float (TimeToClose (Base ticket))
     && PrimFloat.ltb (TimeToClose (Base ticket)) 27000%float
     && (0 <? CommentWordsCount ticket)
  then (comms ++ [GoFloat.of_int (CommentWordsCount ticket)],
        times ++ [TimeToClose (Base ticket)])
  else (comms, times).

(** [CommentsComplexity], up to the two series handed to [scatter]. *)
Definition CommentsComplexity (tickets : list Measures) : list float * list float :=
  fold_left comments_step tickets ([], []).

(** The body of the loop of [FieldsComplexity], on [fields] and [times]. *)
Definition fields_step (acc : list float * list float) (ticket : Measures)
  : list float * list float :=
  let '(fields, times) := acc in
  if PrimFloat.ltb 0%float (TimeToClose (Base ticket))
     && PrimFloat.leb (TimeToClose (Base ticket)) 27000%float
     && (0 <? SummaryDescWordsCount ticket)
     && (SummaryDescWordsCount ticket <? 1000)
  then (fields ++ [GoFloat.of_int (SummaryDescWordsCount ticket)],
        times ++ [TimeToClose (Base ticket)])
  else (fields, times).

(** [FieldsComplexity], up to the two series handed to [scatter]. *)
Definition FieldsComplexity (tickets : list Measures) : list float * list float :=
  fold_left fields_step tickets ([], []).

(** The body of the loop of [GrammarCorrectness], on [scores] and [times];
    [float64(...)] of the score is the score. *)
Definition grammar_step (acc : list float * list float) (ticket : Measures)
  : list float * list float :=
  let '(scores, times) := acc in
  if PrimFloat.ltb 0%float (TimeToClose (Base ticket))
     && PrimFloat.leb (TimeToClose (Base ticket)) 27000%float
     && HasScore (GrammarCorrectness_ ticket)
  then (scores ++ [Value (GrammarCorrectness_ ticket)], times ++ [TimeToClose (Base ticket)])
  else (scores, times).

(** [GrammarCorrectness], up to the two series handed to [scatter]. *)
Definition GrammarCorrectness (tickets : list Measures) : list float * list float :=
  fold_left grammar_step tickets ([], []).

(** The body of the loop of [SentimentAnalysis], on [scores] and [times]. *)
Definition sentiment_step (acc : list float * list float) (ticket : Measures)
  : list float * list float :=
  let '(scores, times) := acc in
  if PrimFloat.ltb 0%float (TimeToClose (Base ticket))
     && PrimFloat.leb (TimeToClose (Base ticket)) 27000%float
     && HasScore (Sentiment ticket)
  then (scores ++ [Value (Sentiment ticket)], times ++ [TimeToClose (Base ticket)])
  else (scores, times).

(** [SentimentAnalysis], up to the two series handed to [scatter]. *)
Definition SentimentAnalysis (tickets : list Measures) : list float * list float :=
  fold_left sentiment_step tickets ([], []).

End plot_cont.

Section BarChartFacts.
Import plot.

(** The values [Stacktraces] hands to [barchart], in terms of the
    tickets. *)
Lemma Stacktraces_bars_values tickets :
  plot_cont.Stacktraces_bars tickets
  = Some [ ("With Stack Traces",
            PrimFloat.div (total_time (counted_with HasStackTrace tickets))
              (GoFloat.of_int (Z.of_nat (List.length (counted_with HasStackTrace tickets)))));
           ("Without Stack Traces",
            PrimFloat.div (total_time (counted_without HasStackTrace tickets))
              (GoFloat.of_int
                 (Z.of_nat (List.length tickets)
                  - Z.of_nat (List.length (counted_with HasStackTrace tickets))))) ].
Proof.
  unfold plot_cont.Stacktraces_bars.
  rewrite (tally_fold plot_cont.stacktraces_body HasStackTrace); [reflexivity|].
  intros c s w t. reflexivity.
Qed.

(** A skipped ticket is in neither selection. *)
Lemma counted_with_insert has before after t :
  skipped t = true ->
  counted_with has (before ++ t :: after) = counted_with has (before ++ after).
Proof.
  intros H. unfold counted_with. rewrite !filter_app. cbn [filter]. now rewrite H.
Qed.

Lemma counted_without_insert has before after t :
  skipped t = true ->
  counted_without has (before ++ t :: after) = counted_without has (before ++ after).
Proof.
  intros H. unfold counted_without. rewrite !filter_app. cbn [filter]. now rewrite H.
Qed.

Lemma length_insert {X : Type} (before after : list X) (x : X) :
  Z.of_nat (List.length (before ++ x :: after))
  = Z.of_nat (List.length (before ++ after)) + 1.
Proof. rewrite !length_app. simpl. lia. Qed.

End BarChartFacts.

(** X9.  The value reported for the tickets without steps to reproduce
    (and likewise without stack traces) is taken over too many tickets:
    the divisor is the number of all tickets less those counted with
    steps, so it also counts the tickets that the loop skips.  A skipped
    ticket put anywhere into a population leaves the first value and the
    sum of the second as they are, and raises the divisor of the second by
    one. *)
Theorem skipped_ticket_dilutes_mean (before after : list plot.Ticket) (t : plot.Ticket) :
  plot.skipped t = true ->
  (plot.StepsToReproduce_bars (before ++ after)
   = Some [ ("With Steps to Reproduce",
             PrimFloat.div
               (total_time (counted_with plot.HasStepsToReproduce (before ++ after)))
               (GoFloat.of_int
                  (Z.of_nat
                     (List.length
                        (counted_with plot.HasStepsToReproduce (before ++ after))))));
            ("Without Steps to Reproduce",
             PrimFloat.div
               (total_time (counted_without plot.HasStepsToReproduce (before ++ after)))
               (GoFloat.of_int
                  (Z.of_nat (List.length (before ++ after))
                   - Z.of_nat
                       (List.length
                          (counted_with plot.HasStepsToReproduce (before ++ after)))))) ]
   /\ plot.StepsToReproduce_bars (before ++ t :: after)
      = Some [ ("With Steps to Reproduce",
                PrimFloat.div
                  (total_time (counted_with plot.HasStepsToReproduce (before ++ after)))
                  (GoFloat.of_int
                     (Z.of_nat
                        (List.length
                           (counted_with plot.HasStepsToReproduce (before ++ after))))));
               ("Without Steps to Reproduce",
                PrimFloat.div
                  (total_time (counted_without plot.HasStepsToReproduce (before ++ after)))
                  (GoFloat.of_int
                     (Z.of_nat (List.length (before ++ after)) + 1
                      - Z.of_nat
                          (List.length
                             (counted_with plot.HasStepsToReproduce
                                (before ++ after)))))) ])
  /\ (plot_cont.Stacktraces_bars (before ++ after)
      = Some [ ("With Stack Traces",
                PrimFloat.div
                  (total_time (counted_with plot.HasStackTrace (before ++ after)))
                  (GoFloat.of_int
                     (Z.of_nat
                        (List.length (counted_with plot.HasStackTrace (before ++ after))))));
               ("Without Stack Traces",
                PrimFloat.div
                  (total_time (counted_without plot.HasStackTrace (before ++ after)))
                  (GoFloat.of_int
                     (Z.of_nat (List.length (before ++ after))
                      - Z.of_nat
                          (List.length
                             (counted_with plot.HasStackTrace (before ++ after)))))) ]
      /\ plot_cont.Stacktraces_bars (before ++ t :: after)
         = Some [ ("With Stack Traces",
                   PrimFloat.div
                     (total_time (counted_with plot.HasStackTrace (before ++ after)))
                     (GoFloat.of_int
                        (Z.of_nat
                           (List.length
                              (counted_with plot.HasStackTrace (before ++ after))))));
                  ("Without Stack Traces",
                   PrimFloat.div
                     (total_time (counted_without plot.HasStackTrace (before ++ after)))
                     (GoFloat.of_int
                        (Z.of_nat (List.length (before ++ after)) + 1
                         - Z.of_nat
                             (List.length
                                (counted_with plot.HasStackTrace (before ++ after)))))) ]).
Proof.
  intros Hskip. split; split.
  - apply StepsToReproduce_bars_values.
  - rewrite StepsToReproduce_bars_values.
    rewrite (counted_with_insert _ before after t Hskip).
    rewrite (counted_without_insert _ before after t Hskip).
    rewrite length_insert. reflexivity.
  - apply Stacktraces_bars_values.
  - rewrite Stacktraces_bars_values.
    rewrite (counted_with_insert _ before after t Hskip).
    rewrite (counted_without_insert _ before after t Hskip).
    rewrite length_insert. reflexivity.
Qed.

(** One ticket closed in six hours: the value reported is [6]; with a
    ticket that was never closed ([TimeToClose] zero) beside it, the value
    reported is [3]. *)
Lemma skipped_ticket_dilutes_mean_example :
  plot.StepsToReproduce_bars ([Population.closed_in 6%float false []] ++ [])
  = Some [ ("With Steps to Reproduce", PrimFloat.nan);
           ("Without Steps to Reproduce", 6%float) ]
  /\ plot.StepsToReproduce_bars
       ([Population.closed_in 6%float false []]
          ++ Population.closed_in 0%float false [] :: [])
     = Some [ ("With Steps to Reproduce", PrimFloat.nan);
              ("Without Steps to Reproduce", 3%float) ]
  /\ plot_cont.Stacktraces_bars
       ([Population.closed_in 6%float false []]
          ++ Population.closed_in 0%float false [] :: [])
     = Some [ ("With Stack Traces", PrimFloat.nan);
              ("Without Stack Traces", 3%float) ].
Proof.
  destruct (skipped_ticket_dilutes_mean
              [Population.closed_in 6%float false []] []
              (Population.closed_in 0%float false []) eq_refl)
    as [[H1 H2] [_ H3]].
  split; [|split].
  - rewrite H1. vm_compute. reflexivity.
  - rewrite H2. vm_compute. reflexivity.
  - rewrite H3. vm_compute. reflexivity.
Defined.

(** ** The scatter plots *)

Section ScatterFacts.
Import plot plot_cont.

(** A loop that appends one value to each slice for the elements it keeps. *)
Lemma fold_keeping {X : Type} (keep : X -> bool) (metric time : X -> float)
      (step : list float * list float -> X -> list float * list float) :
  (forall a b x,
      step (a, b) x = if keep x then (a ++ [metric x], b ++ [time x]) else (a, b)) ->
  forall l, fold_left step l ([], [])
            = (map metric (filter keep l), map time (filter keep l)).
Proof.
  intros Hstep l.
  rewrite (fold_appending step (fun x => if keep x then [metric x] else [])
                          (fun x => if keep x then [time x] else [])).
  - simpl. now rewrite !flat_map_filter.
  - intros [a b] x. rewrite Hstep. simpl. destruct (keep x); now rewrite ?app_nil_r.
Qed.

Definition closing_time (ticket : Measures) : float := TimeToClose (Base ticket).

(** The guards of the four loops. *)
Definition comments_kept (ticket : Measures) : bool :=
  PrimFloat.ltb 0%float (closing_time ticket)
  && PrimFloat.ltb (closing_time ticket) 27000%float
  && (0 <? CommentWordsCount ticket).

Definition fields_kept (ticket : Measures) : bool :=
  PrimFloat.ltb 0%float (closing_time ticket)
  && PrimFloat.leb (closing_time ticket) 27000%float
  && (0 <? SummaryDescWordsCount ticket)
  && (SummaryDescWordsCount ticket <? 1000).

Definition grammar_kept (ticket : Measures) : bool :=
  PrimFloat.ltb 0%float (closing_time ticket)
  && PrimFloat.leb (closing_time ticket) 27000%float
  && HasScore (GrammarCorrectness_ ticket).

Definition sentiment_kept (ticket : Measures) : bool :=
  PrimFloat.ltb 0%float (closing_time ticket)
  && PrimFloat.leb (closing_time ticket) 27000%float
  && HasScore (Sentiment ticket).

Lemma CommentsComplexity_kept tickets :
  CommentsComplexity tickets
  = (map (fun t => GoFloat.of_int (CommentWordsCount t)) (filter comments_kept tickets),
     map closing_time (filter comments_kept tickets)).
Proof. apply (fold_keeping comments_kept). reflexivity. Qed.

Lemma FieldsComplexity_kept tickets :
  FieldsComplexity tickets
  = (map (fun t => GoFloat.of_int (SummaryDescWordsCount t)) (filter fields_kept tickets),
     map closing_time (filter fields_kept tickets)).
Proof. apply (fold_keeping fields_kept). reflexivity. Qed.

Lemma GrammarCorrectness_kept tickets :
  GrammarCorrectness tickets
  = (map (fun t => Value (GrammarCorrectness_ t)) (filter grammar_kept tickets),
     map closing_time (filter grammar_kept tickets)).
Proof. apply (fold_keeping grammar_kept). reflexivity. Qed.

Lemma SentimentAnalysis_kept tickets :
  SentimentAnalysis tickets
  = (map (fun t => Value (Sentiment t)) (filter sentiment_kept tickets),
     map closing_time (filter sentiment_kept tickets)).
Proof. apply (fold_keeping sentiment_kept). reflexivity. Qed.

(** Closed after some time, and within 27000 hours. *)
Definition plausible (t : float) : Prop :=
  PrimFloat.ltb 0%float t = true /\ PrimFloat.leb t 27000%float = true.

Lemma kept_times_plausible (keep : Measures -> bool) tickets :
  (forall t, keep t = true -> plausible (closing_time t)) ->
  Forall plausible (map closing_time (filter keep tickets)).
Proof.
  intros Hkeep. apply Forall_forall. intros x Hx.
  apply in_map_iff in Hx. destruct Hx as [t [<- Ht]].
  apply filter_In in Ht. apply Hkeep, Ht.
Qed.

Lemma filter_none {X : Type} (keep : X -> bool) (l : list X) :
  (forall x, In x l -> keep x = false) -> filter keep l = [].
Proof.
  induction l as [|x l IH]; intros H; simpl; [reflexivity|].
  rewrite (H x (or_introl eq_refl)). apply IH. intros y Hy. apply H. now right.
Qed.

Lemma filter_same {X : Type} (f g : X -> bool) (l : list X) :
  (forall x, In x l -> f x = g x) -> filter f l = filter g l.
Proof.
  induction l as [|x l IH]; intros H; simpl; [reflexivity|].
  rewrite (H x (or_introl eq_refl)), IH; [reflexivity|].
  intros y Hy. apply H. now right.
Qed.

End ScatterFacts.

(** Tickets with their measures. *)
Module Measured.
Import plot plot_cont.

Definition measured (hours : float) (commentWords fieldWords : Z)
           (grammar sentiment : option float) : Measures :=
  {| Base := Population.closed_in hours false [];
     CommentWordsCount := commentWords;
     SummaryDescWordsCount := fieldWords;
     GrammarCorrectness_ :=
       match grammar with
       | Some v => {| HasScore := true; Value := v |}
       | None => {| HasScore := false; Value := 0%float |}
       end;
     Sentiment :=
       match sentiment with
       | Some v => {| HasScore := true; Value := v |}
       | None => {| HasScore := false; Value := 0%float |}
       end |}.

End Measured.

(** X10.  Each scatter plot ([CommentsComplexity], [FieldsComplexity],
    [GrammarCorrectness], [SentimentAnalysis]) hands to [scatter] two
    series of equal length whose entries [i] are the metric and the closing
    time of the same ticket, the [i]-th ticket that its guard keeps; and
    every closing time it plots is positive and at most 27000. *)
Theorem scatter_series_aligned (tickets : list plot_cont.Measures) :
  (plot_cont.CommentsComplexity tickets
   = (map (fun t => GoFloat.of_int (plot_cont.CommentWordsCount t))
          (filter comments_kept tickets),
      map closing_time (filter comments_kept tickets))
   /\ Forall plausible (snd (plot_cont.CommentsComplexity tickets)))
  /\ (plot_cont.FieldsComplexity tickets
      = (map (fun t => GoFloat.of_int (plot_cont.SummaryDescWordsCount t))
             (filter fields_kept tickets),
         map closing_time (filter fields_kept tickets))
      /\ Forall plausible (snd (plot_cont.FieldsComplexity tickets)))
  /\ (plot_cont.GrammarCorrectness tickets
      = (map (fun t => plot_cont.Value (plot_cont.GrammarCorrectness_ t))
             (filter grammar_kept tickets),
         map closing_time (filter grammar_kept tickets))
      /\ Forall plausible (snd (plot_cont.GrammarCorrectness tickets)))
  /\ (plot_cont.SentimentAnalysis tickets
      = (map (fun t => plot_cont.Value (plot_cont.Sentiment t))
             (filter sentiment_kept tickets),
         map closing_time (filter sentiment_kept tickets))
      /\ Forall plausible (snd (plot_cont.SentimentAnalysis tickets))).
Proof.
  rewrite CommentsComplexity_kept, FieldsComplexity_kept, GrammarCorrectness_kept,
    SentimentAnalysis_kept.
  repeat split; simpl; apply kept_times_plausible; intros t H; unfold plausible.
  - unfold comments_kept in H. rewrite !andb_true_iff in H.
    destruct H as [[H0 H1] _]. split; [exact H0|].
    revert H1. rewrite FloatAxioms.ltb_spec, FloatAxioms.leb_spec.
    unfold SpecFloat.SFltb, SpecFloat.SFleb.
    destruct (SpecFloat.SFcompare _ _) as [[| |]|]; congruence.
  - unfold fields_kept in H. rewrite !andb_true_iff in H. tauto.
  - unfold grammar_kept in H. rewrite !andb_true_iff in H. tauto.
  - unfold sentiment_kept in H. rewrite !andb_true_iff in H. tauto.
Qed.

(** X11.  The upper bound is not the same in all plots: a ticket closed in
    exactly 27000 hours is left out by [CommentsComplexity], whose guard is
    strict, and kept by [FieldsComplexity], [GrammarCorrectness] and
    [SentimentAnalysis] when its metric qualifies, and counted by the bar
    charts. *)
Theorem boundary_27000 (tickets : list plot_cont.Measures) :
  (forall t, In t tickets -> closing_time t = 27000%float) ->
  plot_cont.CommentsComplexity tickets = ([], [])
  /\ snd (plot_cont.GrammarCorrectness tickets)
     = map closing_time
           (filter (fun t => plot_cont.HasScore (plot_cont.GrammarCorrectness_ t)) tickets)
  /\ snd (plot_cont.SentimentAnalysis tickets)
     = map closing_time (filter (fun t => plot_cont.HasScore (plot_cont.Sentiment t)) tickets)
  /\ snd (plot_cont.FieldsComplexity tickets)
     = map closing_time
           (filter (fun t => (0 <? plot_cont.SummaryDescWordsCount t)
                             && (plot_cont.SummaryDescWordsCount t <? 1000)) tickets)
  /\ (forall t, In t tickets -> plot.skipped (plot_cont.Base t) = false).
Proof.
  intros Hat.
  rewrite CommentsComplexity_kept, FieldsComplexity_kept, GrammarCorrectness_kept,
    SentimentAnalysis_kept. simpl.
  split; [|split; [|split; [|split]]].
  - rewrite filter_none; [reflexivity|].
    intros t Ht. unfold comments_kept. rewrite (Hat t Ht). reflexivity.
  - f_equal. apply filter_same. intros t Ht. unfold grammar_kept. now rewrite (Hat t Ht).
  - f_equal. apply filter_same. intros t Ht. unfold sentiment_kept. now rewrite (Hat t Ht).
  - f_equal. apply filter_same. intros t Ht. unfold fields_kept. rewrite (Hat t Ht).
    simpl. reflexivity.
  - intros t Ht. unfold plot.skipped. specialize (Hat t Ht). unfold closing_time in Hat.
    rewrite Hat. reflexivity.
Qed.

(** The ticket closed in exactly 27000 hours, alone. *)
Lemma boundary_27000_example :
  plot_cont.CommentsComplexity [Measured.measured 27000%float 7 30 (Some 0.5%float) None]
  = ([], [])
  /\ snd (plot_cont.GrammarCorrectness
            [Measured.measured 27000%float 7 30 (Some 0.5%float) None])
     = [27000%float].
Proof.
  destruct (boundary_27000 [Measured.measured 27000%float 7 30 (Some 0.5%float) None])
    as [Hc [Hg _]].
  - intros t [<- | []]. reflexivity.
  - split; [exact Hc | rewrite Hg; reflexivity].
Defined.

(** ** Package [analyze], continued: joining texts *)

Module analyze_cont.
Import jira.

(** [strings.Replace(s, old, new, n)] for an [old] of one byte: the first
    [n] instances of [old] replaced by [new], all of them when [n < 0].
    [limit] is the number of replacements left, [None] for no limit. *)
Fixpoint replace (limit : option nat) (s : string) (old : ascii) (new : string) : string :=
  match s with
  | EmptyString => EmptyString
  | String c s' =>
      if Ascii.eqb c old then
        match limit with
        | Some O => s
        | Some (S k) => (new ++ replace (Some k) s' old new)%string
        | None => (new ++ replace None s' old new)%string
        end
      else String c (replace limit s' old new)
  end.

Definition Replace (s : string) (old : ascii) (new : string) (n : Z) : string :=
  replace (if n <? 0 then None else Some (Z.to_nat n)) s old new.

(** A Go [error], by its message. *)
Definition error : Type := string.

(** [strings.Builder]: the text built so far.  [WriteString] and
    [WriteRune] append and return the number of bytes written and, as
    their documentation says, always a nil error. *)
Definition Builder : Type := string.

Definition WriteString (b : Builder) (s : string) : Builder * Z * option error :=
  ((b ++ s)%string, strings.len s, None).

Definition WriteRune (b : Builder) (r : ascii) : Builder * Z * option error :=
  ((b ++ String r EmptyString)%string, 1, None).

(** The loop of [concatAndRemoveNewlines] over its arguments. *)
Fixpoint concat_loop (strBuilder : Builder) (strs : list string) : string * option error :=
  match strs with
  | [] => (strBuilder, None)
  | str :: rest =>
      let str := Replace str strings.newline " " (-1) in
      match WriteString strBuilder str with
      | (_, _, Some err) => (EmptyString, Some err)
      | (b1, _, None) =>
          match WriteRune b1 " " with
          | (_, _, Some err) => (EmptyString, Some err)
          | (b2, _, None) => concat_loop b2 rest
          end
      end
  end.

(** [concatAndRemoveNewlines]. *)
Definition concatAndRemoveNewlines (strs : list string) : string * option error :=
  concat_loop EmptyString strs.

(** The loop of [concatenateComments] over the comments. *)
Fixpoint comments_loop (builder : Builder) (comments : list Comment) : string * option error :=
  match comments with
  | [] => (builder, None)
  | comment :: rest =>
      match WriteString builder (Body comment) with
      | (_, _, Some err) => (EmptyString, Some err)
      | (b1, _, None) => comments_loop b1 rest
      end
  end.

(** [concatenateComments]. *)
Definition concatenateComments (issue : Issue) : string * option error :=
  comments_loop EmptyString (CommentList (FieldComments (IssueFields issue))).

End analyze_cont.

Section JoiningFacts.
Import analyze_cont.

(** A text with its line feeds turned into spaces, and a space after it. *)
Definition flattened (str : string) : string :=
  (Replace str strings.newline " " (-1) ++ " ")%string.

Fixpoint join (parts : list string) : string :=
  match parts with
  | [] => EmptyString
  | p :: rest => (p ++ join rest)%string
  end.

Lemma join_app l1 l2 : join (l1 ++ l2) = (join l1 ++ join l2)%string.
Proof. induction l1 as [|p l1 IH]; simpl; [reflexivity | now rewrite IH, append_assoc]. Qed.

Lemma concat_loop_join strs :
  forall b, concat_loop b strs = ((b ++ join (map flattened strs))%string, None).
Proof.
  induction strs as [|str rest IH]; intros b; simpl.
  - now rewrite append_nil_r.
  - rewrite IH. unfold flattened. now rewrite !append_assoc.
Qed.

Lemma comments_loop_join comments :
  forall b, comments_loop b comments = ((b ++ join (map jira.Body comments))%string, None).
Proof.
  induction comments as [|c rest IH]; intros b; simpl.
  - now rewrite append_nil_r.
  - rewrite IH. now rewrite append_assoc.
Qed.

Lemma replace_all_length s old c :
  String.length (replace None s old (String c "")) = String.length s.
Proof.
  induction s as [|x s IH]; simpl; [reflexivity|].
  destruct (Ascii.eqb x old); simpl; now rewrite IH.
Qed.

Lemma replace_all_count s old c :
  Ascii.eqb c old = false -> count old (replace None s old (String c "")) = O.
Proof.
  intros Hc. induction s as [|x s IH]; simpl; [reflexivity|].
  destruct (Ascii.eqb x old) eqn:E; simpl.
  - now rewrite Hc.
  - now rewrite E.
Qed.

Definition total_length (parts : list string) : nat :=
  fold_right (fun p n => (String.length p + n)%nat) O parts.

End JoiningFacts.

(** X12.  [concatAndRemoveNewlines] always returns a nil error, and its
    text has no line feed: it is the arguments in order, each with its
    line feeds turned into spaces and followed by one space, so it is as
    long as the arguments together plus one byte for each, and the text of
    two argument lists put end to end is the text of the first followed by
    the text of the second. *)
Theorem concatAndRemoveNewlines_flat (strs more : list string) :
  snd (analyze_cont.concatAndRemoveNewlines strs) = None
  /\ count strings.newline (fst (analyze_cont.concatAndRemoveNewlines strs)) = O
  /\ String.length (fst (analyze_cont.concatAndRemoveNewlines strs))
     = (total_length strs + List.length strs)%nat
  /\ fst (analyze_cont.concatAndRemoveNewlines (strs ++ more))
     = (fst (analyze_cont.concatAndRemoveNewlines strs)
        ++ fst (analyze_cont.concatAndRemoveNewlines more))%string.
Proof.
  unfold analyze_cont.concatAndRemoveNewlines. rewrite !concat_loop_join. simpl.
  split; [reflexivity|]. split; [|split].
  - induction strs as [|str rest IH]; simpl; [reflexivity|].
    unfold flattened at 1, analyze_cont.Replace. simpl.
    rewrite !count_append, IH, replace_all_count by reflexivity. reflexivity.
  - induction strs as [|str rest IH]; simpl; [reflexivity|].
    unfold flattened at 1, analyze_cont.Replace. simpl.
    rewrite !length_append, IH, replace_all_length. simpl. lia.
  - now rewrite map_app, join_app.
Qed.

(** *** Texts that trimming leaves alone *)

Section TidyTexts.
Import analyze_cont.

(** An ASCII byte that is no white space. *)
Definition plain (c : ascii) : bool :=
  (regexp.code c <? 128)%N
  && negb (existsb (Ascii.eqb c) ["009"; "010"; "011"; "012"; "013"; " "]%char).

Definition starts_plain (s : string) : bool :=
  match s with
  | EmptyString => false
  | String c _ => plain c
  end.

Definition ends_plain (s : string) : bool := starts_plain (strings.rev s).

(** A text on one line that neither begins nor ends with white space. *)
Definition tidy (s : string) : Prop :=
  starts_plain s = true /\ ends_plain s = true /\ count strings.newline s = O.

Lemma plain_no_space_width c s :
  plain c = true ->
  strings.space_width strings.space_encodings (String c s) = O
  /\ strings.space_width (map strings.rev strings.space_encodings) (String c s) = O.
Proof.
  destruct c as [[] [] [] [] [] [] [] []]; intros H; try discriminate H; split; reflexivity.
Qed.

Lemma trim_left_plain fuel s :
  starts_plain s = true ->
  strings.trim_left strings.space_encodings fuel s = s
  /\ strings.trim_left (map strings.rev strings.space_encodings) fuel s = s.
Proof.
  destruct s as [|c s]; [discriminate|]. cbn [starts_plain]. intros H.
  destruct (plain_no_space_width c s H) as [H1 H2].
  destruct fuel; cbn [strings.trim_left]; [split; reflexivity|]. now rewrite H1, H2.
Qed.

Lemma rev_onto_append s acc : strings.rev_onto s acc = (strings.rev s ++ acc)%string.
Proof.
  unfold strings.rev. revert acc. induction s as [|c s IH]; intros acc; simpl; [reflexivity|].
  rewrite (IH (String c acc)), (IH (String c "")), append_assoc. reflexivity.
Qed.

Lemma rev_append a b : strings.rev (a ++ b) = (strings.rev b ++ strings.rev a)%string.
Proof.
  induction a as [|c a IH]; simpl.
  - now rewrite append_nil_r.
  - unfold strings.rev in *. simpl.
    rewrite (rev_onto_append (a ++ b)), (rev_onto_append a).
    unfold strings.rev. rewrite IH, append_assoc. reflexivity.
Qed.

Lemma rev_involutive s : strings.rev (strings.rev s) = s.
Proof.
  induction s as [|c s IH]; [reflexivity|].
  change (String c s) with (String c "" ++ s)%string at 1.
  rewrite rev_append, rev_append, IH. reflexivity.
Qed.

Lemma TrimSpace_tidy s :
  starts_plain s = true -> ends_plain s = true -> strings.TrimSpace s = s.
Proof.
  intros Hs He. unfold strings.TrimSpace, strings.TrimLeftSpace.
  rewrite (proj1 (trim_left_plain _ s Hs)). unfold strings.TrimRightSpace.
  rewrite (proj2 (trim_left_plain _ (strings.rev s) He)). apply rev_involutive.
Qed.

Lemma starts_plain_append a b : starts_plain a = true -> starts_plain (a ++ b) = true.
Proof. destruct a; [discriminate | trivial]. Qed.

Lemma ends_plain_append a b : ends_plain b = true -> ends_plain (a ++ b) = true.
Proof. unfold ends_plain. rewrite rev_append. apply starts_plain_append. Qed.

(** On a tidy text the word count is one more than the number of spaces. *)
Lemma calculateNumberOfWords_tidy s :
  tidy s -> analyze.calculateNumberOfWords s = 1 + Z.of_nat (count strings.space s).
Proof.
  intros [Hs [He Hl]]. rewrite calculateNumberOfWords_lines, (Split_no_sep s _ Hl).
  cbn [map total fold_right]. rewrite line_words_spaces, (TrimSpace_tidy s Hs He). lia.
Qed.

Lemma join_tidy (b : string) (bodies : list string) :
  (forall x, In x (b :: bodies) -> tidy x) -> tidy (join (b :: bodies)).
Proof.
  revert b. induction bodies as [|b' rest IH]; intros b H.
  - simpl. rewrite append_nil_r. apply H. now left.
  - assert (Hb : tidy b) by (apply H; now left).
    assert (Hrest : tidy (join (b' :: rest))) by (apply IH; intros x Hx; apply H; now right).
    destruct Hb as [Hs [_ Hl]]. destruct Hrest as [_ [He' Hl']].
    change (join (b :: b' :: rest)) with (b ++ join (b' :: rest))%string.
    repeat split.
    + now apply starts_plain_append.
    + now apply ends_plain_append.
    + rewrite count_append, Hl, Hl'. reflexivity.
Qed.

Lemma count_join c bodies :
  count c (join bodies) = fold_right (fun b n => (count c b + n)%nat) O bodies.
Proof.
  induction bodies as [|b rest IH]; simpl; [reflexivity|]. now rewrite count_append, IH.
Qed.

Lemma total_tidy bodies :
  (forall x, In x bodies -> tidy x) ->
  total (map analyze.calculateNumberOfWords bodies)
  = Z.of_nat (List.length bodies)
    + Z.of_nat (fold_right (fun b n => (count strings.space b + n)%nat) O bodies).
Proof.
  induction bodies as [|b rest IH]; intros H; [reflexivity|].
  cbn [map total fold_right List.length].
  change (fold_right Z.add 0 (map analyze.calculateNumberOfWords rest))
    with (total (map analyze.calculateNumberOfWords rest)).
  rewrite IH by (intros x Hx; apply H; now right).
  rewrite (calculateNumberOfWords_tidy b) by (apply H; now left). lia.
Qed.

Lemma comment_words_total comments acc :
  fold_left (fun wc comment => wc + analyze.calculateNumberOfWords (jira.Body comment))
            comments acc
  = acc + total (map analyze.calculateNumberOfWords (map jira.Body comments)).
Proof.
  revert acc. induction comments as [|c rest IH]; intros acc; simpl; [lia|].
  rewrite IH. lia.
Qed.

End TidyTexts.

(** X13.  [concatenateComments] always returns a nil error, and its text is
    the comment bodies in order with nothing put between them, so the last
    word of a comment and the first word of the next become one word: when
    there is at least one comment and every body is tidy (not empty,
    without line feed, its first and its last byte ASCII bytes that are no
    white space), the joined text counts exactly one word less for every
    comment after the first than the comments counted one by one, which is
    the count [WordinessAnalysis] takes for the selector [comment]. *)
Theorem concatenateComments_merges_words (issue : jira.Issue) :
  analyze_cont.concatenateComments issue
  = (join (map jira.Body (jira.CommentList (jira.FieldComments (jira.IssueFields issue)))),
     None)
  /\ (jira.CommentList (jira.FieldComments (jira.IssueFields issue)) <> [] ->
      (forall c, In c (jira.CommentList (jira.FieldComments (jira.IssueFields issue))) ->
                 tidy (jira.Body c)) ->
      analyze.calculateNumberOfWords (fst (analyze_cont.concatenateComments issue))
      + Z.of_nat (List.length (jira.CommentList (jira.FieldComments (jira.IssueFields issue))))
      = word_count "comment" issue + 1).
Proof.
  unfold analyze_cont.concatenateComments, word_count.
  rewrite comments_loop_join. simpl. split; [reflexivity|].
  intros Hne Htidy.
  rewrite comment_words_total.
  set (comments := jira.CommentList (jira.FieldComments (jira.IssueFields issue))) in *.
  assert (Hb : forall x, In x (map jira.Body comments) -> tidy x).
  { intros x Hx. apply in_map_iff in Hx. destruct Hx as [c [<- Hc]]. now apply Htidy. }
  rewrite (total_tidy _ Hb), length_map.
  destruct comments as [|c rest]; [congruence|].
  rewrite (calculateNumberOfWords_tidy (join (map jira.Body (c :: rest)))).
  - rewrite count_join. lia.
  - apply (join_tidy (jira.Body c) (map jira.Body rest)). exact Hb.
Qed.

(** Two comments of two words each, four words counted one by one, make
    three words once joined; and an issue without comment gives the empty
    text. *)
Lemma concatenateComments_merges_words_example :
  analyze_cont.concatenateComments (Reports.report "It crashed." ["me too"; "same here"])
  = ("me toosame here", None)
  /\ analyze.calculateNumberOfWords
       (fst (analyze_cont.concatenateComments
               (Reports.report "It crashed." ["me too"; "same here"])))
     + 2
     = word_count "comment" (Reports.report "It crashed." ["me too"; "same here"]) + 1
  /\ word_count "comment" (Reports.report "It crashed." ["me too"; "same here"]) = 4
  /\ analyze_cont.concatenateComments (Reports.report "It crashed." []) = ("", None).
Proof.
  destruct (concatenateComments_merges_words
              (Reports.report "It crashed." ["me too"; "same here"])) as [H1 H2].
  split; [exact H1|]. split; [|split].
  - apply H2.
    + discriminate.
    + intros c [<- | [<- | []]]; repeat split.
  - vm_compute. reflexivity.
  - exact (proj1 (concatenateComments_merges_words (Reports.report "It crashed." []))).
Defined.

(** ** The detectors, text by text *)

Section DetectorFacts.

Lemma count_LF_cons s : count strings.newline (LF ++ s) = S (count strings.newline s).
Proof. reflexivity. Qed.

Lemma steps_shape_two_line_feeds text :
  steps_shape text -> (2 <= count strings.newline text)%nat.
Proof.
  intros [before [i1 [d1 [i2 [rest [-> _]]]]]].
  rewrite count_append, count_LF_cons.
  rewrite (count_append _ i1), (count_append _ "*"), (count_append _ d1), count_LF_cons.
  lia.
Qed.

Lemma stack_shape_two_line_feeds text :
  stack_shape text -> (2 <= count strings.newline text)%nat.
Proof.
  intros [head [tail [indent [call [trailing [rest [-> _]]]]]]].
  rewrite count_append, (count_append _ "Exception"), (count_append _ tail), count_LF_cons.
  rewrite (count_append _ indent), (count_append _ "at"), (count_append _ call),
    (count_append _ trailing), count_LF_cons.
  lia.
Qed.

Lemma existsb_subset {X : Type} (f : X -> bool) (l l' : list X) :
  (forall x, In x l -> In x l') -> existsb f l = true -> existsb f l' = true.
Proof.
  intros Hsub H. apply existsb_exists in H. destruct H as [x [Hin Hx]].
  apply existsb_exists. exists x. split; [now apply Hsub | exact Hx].
Qed.

End DetectorFacts.

(** X14.  Neither detector ever answers true for an issue whose texts have
    fewer than two line feeds each: a list of steps or a stack trace
    written on one line, or on two, is not found. *)
Theorem detectors_need_two_line_feeds (issue : jira.Issue) :
  (forall text, In text (texts issue) -> (count strings.newline text <= 1)%nat) ->
  analyze.HasStepsToReproduce issue = (false, None)
  /\ analyze.HasStackTrace issue = (false, None).
Proof.
  intros Hfew. rewrite HasStepsToReproduce_texts, HasStackTrace_texts. split; f_equal.
  - destruct (existsb (regexp.FindStringIndex_found steps_re) (texts issue)) eqn:E;
      [|reflexivity].
    apply existsb_exists in E. destruct E as [text [Hin H]].
    apply steps_found_iff, steps_shape_two_line_feeds in H.
    specialize (Hfew text Hin). lia.
  - destruct (existsb (regexp.FindStringIndex_found stack_re) (texts issue)) eqn:E;
      [|reflexivity].
    apply existsb_exists in E. destruct E as [text [Hin H]].
    apply stack_found_iff, stack_shape_two_line_feeds in H.
    specialize (Hfew text Hin). lia.
Qed.

(** A trace whose frame is not closed by a line feed, and one bullet under
    a heading. *)
Lemma detectors_need_two_line_feeds_example :
  analyze.HasStepsToReproduce
    (Reports.report ("boom Exception: x" ++ LF ++ " at a.b.C.run") [Reports.one_bullet])
  = (false, None)
  /\ analyze.HasStackTrace
       (Reports.report ("boom Exception: x" ++ LF ++ " at a.b.C.run") [Reports.one_bullet])
     = (false, None).
Proof.
  apply detectors_need_two_line_feeds.
  intros text [<- | [<- | []]]; vm_compute; lia.
Defined.

(** X15.  The verdict of a detector depends only on which texts the issue
    has, not on their order or on whether a text is the description or a
    comment, and more texts never lose a detection: if every text of an
    issue is also a text of another issue, whatever the first is detected
    for the second is detected for as well. *)
Theorem detectors_monotone (issue issue' : jira.Issue) :
  (forall text, In text (texts issue) -> In text (texts issue')) ->
  (analyze.HasStepsToReproduce issue = (true, None) ->
   analyze.HasStepsToReproduce issue' = (true, None))
  /\ (analyze.HasStackTrace issue = (true, None) ->
      analyze.HasStackTrace issue' = (true, None)).
Proof.
  intros Hsub. rewrite !HasStepsToReproduce_texts, !HasStackTrace_texts, !verdict_true.
  split; apply existsb_subset; exact Hsub.
Qed.

(** The steps move from the only comment to the description. *)
Lemma detectors_monotone_example :
  analyze.HasStepsToReproduce (Reports.report Reports.headed_bullets ["It crashed."; "me too"])
  = (true, None).
Proof.
  destruct (detectors_monotone
              (Reports.report "It crashed." [Reports.headed_bullets])
              (Reports.report Reports.headed_bullets ["It crashed."; "me too"]))
    as [Hsteps _].
  - intros text [<- | [<- | []]]; simpl; tauto.
  - apply Hsteps. vm_compute. reflexivity.
Defined.

(** ** The command that draws the analyses *)

Module main_plots.
Import jira analyze.

(** A call of a method of the plotter. *)
Inductive Draw : Type :=
| DrawAttachmentsBarchart (title yLabel : string) (withAttch withoutAttch : list float)
| DrawPlot (title xLabel yLabel : string) (xs ys : list float).

(** The calls [main] makes on the plotter for the issues [ii] read from
    the database, in order, when none of them fails ([main] stops at the
    first error). *)
Definition draws (ii : list Issue) : list Draw :=
  let '(withAttch, withoutAttch) := AttachmentsAnalysis ii in
  let '(wordCountSlice, timeDiffs) := WordinessAnalysis ii "description" in
  let '(sentimentScores, timeDiffs') := SentimentScoreAnalysis ii in
  [ DrawAttachmentsBarchart "Attachments Analysis" "Time-To-Resolve" withAttch withoutAttch;
    DrawPlot "Description Analysis" "#Words" "Time-To-Resolve" wordCountSlice timeDiffs;
    DrawPlot "Sentiment Score Analysis" "Score" "Time-To-Resolve" sentimentScores timeDiffs' ].

(** The two series of a scatter plot have one point each per ticket. *)
Definition well_formed (d : Draw) : Prop :=
  match d with
  | DrawAttachmentsBarchart _ _ _ _ => True
  | DrawPlot _ _ _ xs ys => List.length xs = List.length ys
  end.

End main_plots.

(** X16.  Every scatter plot that [main] asks for is well formed, for every
    content of the database: [main] only passes the selector [description]
    to [WordinessAnalysis], so the abscissas and the ordinates it hands to
    [DrawPlot] always have the same length. *)
Theorem main_draws_well_formed (ii : list jira.Issue) :
  Forall main_plots.well_formed (main_plots.draws ii).
Proof.
  unfold main_plots.draws.
  rewrite AttachmentsAnalysis_per_ticket.
  unfold analyze.WordinessAnalysis, analyze.SentimentScoreAnalysis.
  rewrite (wordiness_fold_supported "description" ii [] [] (or_introl eq_refl)).
  rewrite (sentiment_fold ii [] []).
  repeat constructor; simpl; now rewrite !length_map.
Qed.
